(** * react-native-infinite-pager: the gesture-to-position state machine

    A shallow embedding of [src/index.tsx]: the pan-gesture handlers
    ([onBegin], [onTouchesMove], [onUpdate], [onEnd], [onFinalize]), the
    nesting arbitration predicate ([isGestureLocked]), the imperative
    [setPage], the render window ([pageIndices]), the derived values
    ([pageAnim], [focusAnim]), the commit/notify reaction, the mount effect
    that registers a pager and [InfinitePagerProvider].

    Conventions of the embedding.
    - A JavaScript [number] is a [num]: an exact rational or one of the
      IEEE special values NaN, +Infinity, -Infinity.  Rounding of doubles
      and the sign of zero are not modelled; arithmetic on finite values is
      exact.  Where rounding decides what the code does (the page a release
      settles on, the indices of the render window, the focus value), the
      same source lines are also given over binary64 itself, module [D] and
      the definitions whose names end in [64].
    - A Reanimated shared value is a field of the pager's snapshot; a derived
      value is a function of the snapshot.
    - [console.log] has no effect on the state and is left out; the branches
      on [debugTag] are kept where they guard anything else.
    - The view tree, the spring integrator and the page interpolators are
      external collaborators and are not modelled; [withSpring target] is
      recorded as the target the store is driven to. *)

From Stdlib Require Import QArith Qabs Qround ZArith List String Ascii Bool Lia Lqa.
From Stdlib Require Import DecimalString DecimalNat Sorted Permutation.
From Stdlib Require Floats Uint63.
Import ListNotations.

Set Implicit Arguments.

(* ================================================================= *)
(** ** JavaScript numbers *)

Module JS.

Inductive num : Type :=
| NaN
| NInf
| PInf
| Fin (q : Q).

Definition ofZ (z : Z) : num := Fin (inject_Z z).

(** Sign of a finite value, as [Qcompare] against zero. *)
Definition sgn (q : Q) : comparison := Qcompare q 0.

Definition neg (a : num) : num :=
  match a with
  | NaN => NaN
  | NInf => PInf
  | PInf => NInf
  | Fin q => Fin (- q)
  end.

Definition add (a b : num) : num :=
  match a, b with
  | NaN, _ | _, NaN => NaN
  | PInf, NInf | NInf, PInf => NaN
  | PInf, _ | _, PInf => PInf
  | NInf, _ | _, NInf => NInf
  | Fin x, Fin y => Fin (x + y)
  end.

Definition sub (a b : num) : num := add a (neg b).

(** An infinity scaled by a sign: [0 * Infinity] is NaN. *)
Definition scale_inf (s : comparison) (positive : bool) : num :=
  match s with
  | Eq => NaN
  | Gt => if positive then PInf else NInf
  | Lt => if positive then NInf else PInf
  end.

Definition mul (a b : num) : num :=
  match a, b with
  | NaN, _ | _, NaN => NaN
  | PInf, PInf | NInf, NInf => PInf
  | PInf, NInf | NInf, PInf => NInf
  | PInf, Fin y | Fin y, PInf => scale_inf (sgn y) true
  | NInf, Fin y | Fin y, NInf => scale_inf (sgn y) false
  | Fin x, Fin y => Fin (x * y)
  end.

(** Division; the zero divisor is the positive zero. *)
Definition div (a b : num) : num :=
  match a, b with
  | NaN, _ | _, NaN => NaN
  | (PInf | NInf), (PInf | NInf) => NaN
  | PInf, Fin y => match sgn y with Lt => NInf | _ => PInf end
  | NInf, Fin y => match sgn y with Lt => PInf | _ => NInf end
  | Fin _, (PInf | NInf) => Fin 0
  | Fin x, Fin y =>
      match sgn y with
      | Eq => scale_inf (sgn x) true
      | _ => Fin (x / y)
      end
  end.

(** [Math.abs]. *)
Definition abs (a : num) : num :=
  match a with
  | NaN => NaN
  | NInf | PInf => PInf
  | Fin q => Fin (Qabs q)
  end.

(** [Math.round]: the nearest integer, ties towards +Infinity. *)
Definition round_half_up (q : Q) : Z := Qfloor (q + (1 # 2)).

Definition round (a : num) : num :=
  match a with
  | Fin q => ofZ (round_half_up q)
  | other => other
  end.

Definition Qlt_bool (x y : Q) : bool := negb (Qle_bool y x).

(** [a < b], [a <= b], [a > b], [a >= b]: false as soon as one side is NaN. *)
Definition lt (a b : num) : bool :=
  match a, b with
  | NaN, _ | _, NaN => false
  | _, NInf => false
  | NInf, _ => true
  | PInf, _ => false
  | Fin _, PInf => true
  | Fin x, Fin y => Qlt_bool x y
  end.

Definition le (a b : num) : bool :=
  match a, b with
  | NaN, _ | _, NaN => false
  | NInf, _ => true
  | _, PInf => true
  | _, NInf => false
  | PInf, _ => false
  | Fin x, Fin y => Qle_bool x y
  end.

Definition gt (a b : num) : bool := lt b a.
Definition ge (a b : num) : bool := le b a.

(** [a === b] on numbers: NaN is different from itself. *)
Definition seq (a b : num) : bool :=
  match a, b with
  | NInf, NInf | PInf, PInf => true
  | Fin x, Fin y => Qeq_bool x y
  | _, _ => false
  end.

(** Truthiness of a number: [0] and NaN are falsy. *)
Definition truthy (a : num) : bool :=
  match a with
  | NaN => false
  | NInf | PInf => true
  | Fin q => negb (Qeq_bool q 0)
  end.

(** The same value, finite ones up to [Qeq]; unlike [===] this relates NaN
    to itself. *)
Definition eqv (a b : num) : Prop :=
  match a, b with
  | NaN, NaN | NInf, NInf | PInf, PInf => True
  | Fin x, Fin y => x == y
  | _, _ => False
  end.

(** The values the handlers compare: a number, a boolean, or a reference to
    a derived-value object (always truthy, like every object). *)
Inductive derived_ref : Type := IsMinIndex | IsMaxIndex.

Inductive value : Type :=
| VNum (n : num)
| VBool (b : bool)
| VObj (r : derived_ref).

Definition to_bool (v : value) : bool :=
  match v with
  | VNum n => truthy n
  | VBool b => b
  | VObj _ => true
  end.

(** [a || b] returns [a] itself when it is truthy; [a && b] returns [a]
    itself when it is falsy. *)
Definition or (a b : value) : value := if to_bool a then a else b.
Definition and (a b : value) : value := if to_bool a then b else a.

End JS.

Declare Scope num_scope.
Delimit Scope num_scope with num.
Bind Scope num_scope with JS.num.
Infix "+" := JS.add : num_scope.
Infix "-" := JS.sub : num_scope.
Infix "*" := JS.mul : num_scope.
Infix "/" := JS.div : num_scope.
Notation "- x" := (JS.neg x) : num_scope.
Infix "<?" := JS.lt : num_scope.
Infix "<=?" := JS.le : num_scope.
Infix ">?" := JS.gt : num_scope.
Infix ">=?" := JS.ge : num_scope.
Infix "===" := JS.seq (at level 70, no associativity) : num_scope.
Infix "=~=" := JS.eqv (at level 70, no associativity).

(* ================================================================= *)
(** ** JavaScript numbers as the machine has them: binary64 *)

Module D.

Import Floats.

Definition num : Set := float.

(** The double nearest to an integer of magnitude below 2^63; the integer
    itself up to 2^53. *)
Definition ofZ (z : Z) : num :=
  if (z <? 0)%Z then PrimFloat.opp (PrimFloat.of_uint63 (Uint63.of_Z (- z)))
  else PrimFloat.of_uint63 (Uint63.of_Z z).

Definition neg (a : num) : num := PrimFloat.opp a.
Definition add (a b : num) : num := PrimFloat.add a b.
Definition sub (a b : num) : num := PrimFloat.sub a b.
Definition mul (a b : num) : num := PrimFloat.mul a b.
Definition div (a b : num) : num := PrimFloat.div a b.
Definition abs (a : num) : num := PrimFloat.abs a.

(** [a < b], [a <= b], [a > b], [a >= b]. *)
Definition lt (a b : num) : bool := PrimFloat.ltb a b.
Definition le (a b : num) : bool := PrimFloat.leb a b.
Definition gt (a b : num) : bool := lt b a.
Definition ge (a b : num) : bool := le b a.

(** [a === b]. *)
Definition seq (a b : num) : bool := PrimFloat.eqb a b.

Definition is_nan (a : num) : bool := PrimFloat.is_nan a.

(** Truthiness: [0], [-0] and NaN are falsy. *)
Definition truthy (a : num) : bool := negb (PrimFloat.is_zero a || PrimFloat.is_nan a).

(** [Math.round]: the nearest integer, ties towards +Infinity, computed on
    the exact value [(-1)^s * m * 2^e] of the double.  A double with [e >= 0]
    is an integer already; a result of 0 keeps the sign of the argument. *)
Definition round (x : num) : num :=
  match Prim2SF x with
  | S754_finite s m e =>
      if (0 <=? e)%Z then x
      else
        let n := if s then Z.neg m else Z.pos m in
        let z := ((2 * n + 2 ^ (- e)) / 2 ^ (- e + 1))%Z in
        if (z =? 0)%Z then (if s then neg_zero else zero) else ofZ z
  | _ => x
  end.

(** The double-precision rounding of an integer, as the specification of
    [of_uint63] gives it. *)
Definition canon (v : Z) : spec_float := binary_normalize prec emax v 0%Z false.

(** The integer a double stands for, if it stands for one. *)
Definition toZ (x : num) : option Z :=
  match Prim2SF x with
  | S754_zero _ => Some 0%Z
  | S754_finite s m e =>
      let n := if s then Z.neg m else Z.pos m in
      if (0 <=? e)%Z then Some (n * 2 ^ e)%Z
      else if (Z.pos m mod 2 ^ (- e) =? 0)%Z then Some (n / 2 ^ (- e))%Z
      else None
  | _ => None
  end.

End D.

(* ================================================================= *)
(** ** Pager identities

    [pagerId] is the template string
    [`${orientation}:${nestingDepth}:${Math.random()}`].  The arbitration
    predicate reads the first two fields back with [split(":")] and
    [Number]. *)

Module Ident.

Definition colon : ascii := ":"%char.

(** [s.split(sep)] for a one-character separator. *)
Fixpoint split (sep : ascii) (s : string) : list string :=
  match s with
  | EmptyString => [EmptyString]
  | String c rest =>
      if Ascii.eqb c sep then EmptyString :: split sep rest
      else match split sep rest with
           | [] => [String c EmptyString]
           | hd :: tl => String c hd :: tl
           end
  end.

(** [`${n}`] for a non-negative integer. *)
Definition show_nat (n : nat) : string := NilEmpty.string_of_uint (Nat.to_uint n).

(** [Number(x)] where [x] is an array element: [undefined] converts to NaN, a
    string of decimal digits to its value (the empty string to 0).  Other
    numeric literals (signs, fractions, exponents) never occur in the depth
    field the template writes and are read as NaN here. *)
Definition Number (x : option string) : JS.num :=
  match x with
  | None => JS.NaN
  | Some s =>
      match NilEmpty.uint_of_string s with
      | Some u => JS.ofZ (Z.of_nat (Nat.of_uint u))
      | None => JS.NaN
      end
  end.

Definition orientation_of (vertical : bool) : string :=
  if vertical then "vertical"%string else "horizontal"%string.

(** [rnd] stands for the text of [Math.random()], drawn once per mount. *)
Definition pagerId (vertical : bool) (nestingDepth : nat) (rnd : string) : string :=
  (orientation_of vertical ++ ":" ++ show_nat nestingDepth ++ ":" ++ rnd)%string.

End Ident.

(* ================================================================= *)
(** ** Props and the snapshot of one pager *)

Record Props : Type := {
  vertical : bool;
  pageCallbackNode : option JS.num;   (* value held by an injected node *)
  syncNode : option JS.num;           (* value held by an injected node *)
  pageBuffer : nat;
  minIndex : JS.num;
  maxIndex : JS.num;
  gesturesDisabled : bool;
  flingVelocity : JS.num;
  bouncePct : JS.num;
  debugTag : string;
  width : option JS.num;
  height : option JS.num;
  initialIndex : JS.num
}.

(** The defaults of the destructured parameter list. *)
Definition defaultProps : Props := {|
  vertical := false;
  pageCallbackNode := None;
  syncNode := None;
  pageBuffer := 1;
  minIndex := JS.NInf;
  maxIndex := JS.PInf;
  gesturesDisabled := false;
  flingVelocity := JS.ofZ 500;
  bouncePct := JS.ofZ 0;
  debugTag := ""%string;
  width := None;
  height := None;
  initialIndex := JS.ofZ 0
|}.

(** A mounted pager: its props, the depth its provider hands down and the
    random part of its id. *)
Record Instance : Type := {
  props : Props;
  nestingDepth : nat;
  rnd : string
}.

Definition orientation (i : Instance) : string :=
  Ident.orientation_of (vertical (props i)).

Definition pagerId (i : Instance) : string :=
  Ident.pagerId (vertical (props i)) (nestingDepth i) (rnd i).

Record Pager : Type := {
  pageWidth : JS.num;
  pageHeight : JS.num;
  translate : JS.num;
  spring : option JS.num;             (* target of a [withSpring] in flight *)
  curIndex : JS.num;
  pageAnim : JS.num;
  startTranslate : JS.num;
  initTouchX : JS.num;
  initTouchY : JS.num;
  laidOut : option JS.num;            (* what [onLayoutPromise] resolved with *)
  pendingSetPage : list (JS.num * bool);  (* [setPage] calls awaiting layout *)
  reactionPrev : option JS.num;       (* [prev] of the animated reaction *)
  pageChanges : list JS.num           (* calls of [onPageChangeInternal] *)
}.

Definition with_size (w h : JS.num) (p : Pager) : Pager :=
  {| pageWidth := w; pageHeight := h; translate := translate p;
     spring := spring p; curIndex := curIndex p; pageAnim := pageAnim p;
     startTranslate := startTranslate p; initTouchX := initTouchX p;
     initTouchY := initTouchY p; laidOut := laidOut p;
     pendingSetPage := pendingSetPage p; reactionPrev := reactionPrev p;
     pageChanges := pageChanges p |}.

(** [translate.value = v]: a plain write also ends a spring in flight. *)
Definition write_translate (v : JS.num) (p : Pager) : Pager :=
  {| pageWidth := pageWidth p; pageHeight := pageHeight p; translate := v;
     spring := None; curIndex := curIndex p; pageAnim := pageAnim p;
     startTranslate := startTranslate p; initTouchX := initTouchX p;
     initTouchY := initTouchY p; laidOut := laidOut p;
     pendingSetPage := pendingSetPage p; reactionPrev := reactionPrev p;
     pageChanges := pageChanges p |}.

(** [translate.value = withSpring(target, cfg)]. *)
Definition spring_translate (target : JS.num) (p : Pager) : Pager :=
  {| pageWidth := pageWidth p; pageHeight := pageHeight p;
     translate := translate p; spring := Some target;
     curIndex := curIndex p; pageAnim := pageAnim p;
     startTranslate := startTranslate p; initTouchX := initTouchX p;
     initTouchY := initTouchY p; laidOut := laidOut p;
     pendingSetPage := pendingSetPage p; reactionPrev := reactionPrev p;
     pageChanges := pageChanges p |}.

Definition with_pageAnim (v : JS.num) (p : Pager) : Pager :=
  {| pageWidth := pageWidth p; pageHeight := pageHeight p;
     translate := translate p; spring := spring p;
     curIndex := curIndex p; pageAnim := v;
     startTranslate := startTranslate p; initTouchX := initTouchX p;
     initTouchY := initTouchY p; laidOut := laidOut p;
     pendingSetPage := pendingSetPage p; reactionPrev := reactionPrev p;
     pageChanges := pageChanges p |}.

Definition with_touch (start x y : JS.num) (p : Pager) : Pager :=
  {| pageWidth := pageWidth p; pageHeight := pageHeight p;
     translate := translate p; spring := spring p;
     curIndex := curIndex p; pageAnim := pageAnim p;
     startTranslate := start; initTouchX := x; initTouchY := y;
     laidOut := laidOut p; pendingSetPage := pendingSetPage p;
     reactionPrev := reactionPrev p; pageChanges := pageChanges p |}.

Definition with_layout (l : option JS.num) (q : list (JS.num * bool)) (p : Pager) : Pager :=
  {| pageWidth := pageWidth p; pageHeight := pageHeight p;
     translate := translate p; spring := spring p;
     curIndex := curIndex p; pageAnim := pageAnim p;
     startTranslate := startTranslate p; initTouchX := initTouchX p;
     initTouchY := initTouchY p; laidOut := l; pendingSetPage := q;
     reactionPrev := reactionPrev p; pageChanges := pageChanges p |}.

Definition with_reactionPrev (v : option JS.num) (p : Pager) : Pager :=
  {| pageWidth := pageWidth p; pageHeight := pageHeight p;
     translate := translate p; spring := spring p;
     curIndex := curIndex p; pageAnim := pageAnim p;
     startTranslate := startTranslate p; initTouchX := initTouchX p;
     initTouchY := initTouchY p; laidOut := laidOut p;
     pendingSetPage := pendingSetPage p; reactionPrev := v;
     pageChanges := pageChanges p |}.

(** [x || 0] on an optional numeric prop. *)
Definition or_zero (x : option JS.num) : JS.num :=
  match x with
  | Some v => if JS.truthy v then v else JS.ofZ 0
  | None => JS.ofZ 0
  end.

(** The snapshot right after the first render: the [useSharedValue] and
    [useState] initialisers. *)
Definition mount (i : Instance) : Pager := {|
  pageWidth := or_zero (width (props i));
  pageHeight := or_zero (height (props i));
  translate := match syncNode (props i) with Some v => v | None => JS.ofZ 0 end;
  spring := None;
  curIndex := initialIndex (props i);
  pageAnim := match pageCallbackNode (props i) with
              | Some v => v
              | None => initialIndex (props i)
              end;
  startTranslate := JS.ofZ 0;
  initTouchX := JS.ofZ 0;
  initTouchY := JS.ofZ 0;
  laidOut := None;
  pendingSetPage := [];
  reactionPrev := None;
  pageChanges := []
|}.

Definition pageSize (i : Instance) (p : Pager) : JS.num :=
  if vertical (props i) then pageHeight p else pageWidth p.

(* ================================================================= *)
(** ** Derived values *)

Definition ofNat (n : nat) : JS.num := JS.ofZ (Z.of_nat n).

(** [isMinIndex.value] and [isMaxIndex.value]. *)
Definition isMinIndex (i : Instance) (p : Pager) : bool :=
  (curIndex p <=? minIndex (props i))%num.

Definition isMaxIndex (i : Instance) (p : Pager) : bool :=
  (curIndex p >=? maxIndex (props i))%num.

(** [const isAtEdge = isMinIndex || isMaxIndex]: the operands are the two
    derived-value objects themselves, not their [.value]; [isAtEdgeAnim]
    is the derived value that returns it. *)
Definition isAtEdge : JS.value :=
  JS.or (JS.VObj JS.IsMinIndex) (JS.VObj JS.IsMaxIndex).

Definition isAtEdgeAnim : JS.value := isAtEdge.

(** [v.split(":")[k]]; [None] is [undefined]. *)
Definition field (k : nat) (v : string) : option string :=
  nth_error (Ident.split Ident.colon v) k.

(** [x === s] for an array element [x] and a string [s]. *)
Definition str_is (x : option string) (s : string) : bool :=
  match x with
  | Some t => String.eqb t s
  | None => false
  end.

Definition isDeepestInOrientation (i : Instance) (active : list string) : bool :=
  forallb
    (fun v => (Ident.Number (field 1 v) <=? ofNat (nestingDepth i))%num)
    (filter (fun v => str_is (field 0 v) (orientation i)) active).

(** [activePagers.value.length && !isDeepestInOrientation]. *)
Definition isGestureLocked (i : Instance) (active : list string) : JS.value :=
  JS.and (JS.VNum (ofNat (List.length active)))
         (JS.VBool (negb (isDeepestInOrientation i active))).

Definition gesturesDisabledAnim (i : Instance) : bool := gesturesDisabled (props i).

(** Truthiness of a string: only the empty string is falsy. *)
Definition str_truthy (s : string) : bool :=
  match s with
  | EmptyString => false
  | String _ _ => true
  end.

(* ================================================================= *)
(** ** The pan gesture *)

Record PanEvent : Type := {
  evX : JS.num;
  evY : JS.num;
  translationX : JS.num;
  translationY : JS.num;
  velocityX : JS.num;
  velocityY : JS.num
}.

(** [evt.changedTouches[0]]. *)
Record Touch : Type := {
  touchX : JS.num;
  touchY : JS.num
}.

Definition push (id : string) (active : list string) : list string :=
  active ++ [id].

(** [active.filter((pId) => pId !== id)]. *)
Definition remove (id : string) (active : list string) : list string :=
  filter (fun pId => negb (String.eqb pId id)) active.

(** [active.includes(id)]. *)
Definition includes (id : string) (active : list string) : bool :=
  existsb (fun pId => String.eqb pId id) active.

Definition onBegin (i : Instance) (evt : PanEvent) (p : Pager)
    (active : list string) : Pager * list string :=
  let active' :=
    if negb (JS.to_bool isAtEdgeAnim) then push (pagerId i) active else active in
  (with_touch (translate p) (evX evt) (evY evt) p, active').

Definition touchTranslate (i : Instance) (mainTouch : Touch) (p : Pager) : JS.num :=
  let evtVal := if vertical (props i) then touchY mainTouch else touchX mainTouch in
  let initTouch := if vertical (props i) then initTouchY p else initTouchX p in
  (evtVal - initTouch)%num.

Definition swipingPastEnd (i : Instance) (mainTouch : Touch) (p : Pager) : bool :=
  let evtTranslate := touchTranslate i mainTouch p in
  (isMinIndex i p && (evtTranslate >? JS.ofZ 0)%num)
  || (isMaxIndex i p && (evtTranslate <? JS.ofZ 0)%num).

Definition shouldFailSelf (i : Instance) (mainTouch : Touch) (p : Pager)
    (active : list string) : bool :=
  (negb (JS.truthy (bouncePct (props i))) && swipingPastEnd i mainTouch p)
  || JS.to_bool (isGestureLocked i active)
  || gesturesDisabledAnim i.

(** The result pairs the new active list with whether [mgr.fail()] was
    called. *)
Definition onTouchesMove (i : Instance) (mainTouch : Touch) (p : Pager)
    (active : list string) : list string * bool :=
  if shouldFailSelf i mainTouch p active then
    ((if str_truthy (debugTag (props i)) then remove (pagerId i) active
      else active),
     true)
  else
    ((if negb (includes (pagerId i) active) then push (pagerId i) active
      else active),
     false).

Definition primaryTranslation (i : Instance) (evt : PanEvent) : JS.num :=
  if vertical (props i) then translationY evt else translationX evt.

Definition crossTranslation (i : Instance) (evt : PanEvent) : JS.num :=
  if vertical (props i) then translationX evt else translationY evt.

Definition primaryVelocity (i : Instance) (evt : PanEvent) : JS.num :=
  if vertical (props i) then velocityY evt else velocityX evt.

Definition isSwipingCrossAxis_update (i : Instance) (evt : PanEvent) : bool :=
  (JS.abs (crossTranslation i evt) >? JS.ofZ 10)%num
  && (JS.abs (crossTranslation i evt) >? JS.abs (primaryTranslation i evt))%num.

(** The value [onUpdate] assigns to [translate] once it got past its early
    return. *)
Definition updateTranslate (i : Instance) (evt : PanEvent) (p : Pager) : JS.num :=
  let evtTranslate := primaryTranslation i evt in
  let rawVal := (startTranslate p + evtTranslate)%num in
  let page := (initialIndex (props i) + (- rawVal) / pageSize i p)%num in
  if (page >=? minIndex (props i))%num && (page <=? maxIndex (props i))%num then
    rawVal
  else
    let referenceVal :=
      if (page <? minIndex (props i))%num then minIndex (props i)
      else maxIndex (props i) in
    let pageOverflowPct := (referenceVal - page)%num in
    let overflowTrans := (pageOverflowPct * pageSize i p)%num in
    let maxBounceTrans := (bouncePct (props i) * pageSize i p)%num in
    let bounceTrans := (pageOverflowPct * maxBounceTrans)%num in
    let clampedVal := (rawVal - overflowTrans)%num in
    (clampedVal + bounceTrans)%num.

Definition onUpdate (i : Instance) (evt : PanEvent) (p : Pager)
    (active : list string) : Pager :=
  if JS.to_bool (isGestureLocked i active) || isSwipingCrossAxis_update i evt
  then p
  else write_translate (updateTranslate i evt p) p.

Definition isSwipingCrossAxis_end (i : Instance) (evt : PanEvent) : bool :=
  (JS.abs (crossTranslation i evt) >? JS.abs (primaryTranslation i evt))%num.

Definition isFling (i : Instance) (evt : PanEvent) (active : list string) : bool :=
  if JS.to_bool (isGestureLocked i active) || isSwipingCrossAxis_end i evt
  then false
  else (JS.abs (primaryVelocity i evt) >? flingVelocity (props i))%num.

Definition velocityModifier (i : Instance) (evt : PanEvent) (p : Pager)
    (active : list string) : JS.num :=
  let m := if isFling i evt active then (pageSize i p / JS.ofZ 2)%num else JS.ofZ 0 in
  if (primaryVelocity i evt <? JS.ofZ 0)%num then (m * JS.ofZ (-1))%num else m.

(** The page [onEnd] settles on, after both clamping assignments. *)
Definition endPage (i : Instance) (evt : PanEvent) (p : Pager)
    (active : list string) : JS.num :=
  let page :=
    (initialIndex (props i)
     + JS.ofZ (-1)
       * JS.round ((translate p + velocityModifier i evt p active) / pageSize i p))%num in
  let page := if (page <? minIndex (props i))%num then minIndex (props i) else page in
  let page := if (page >? maxIndex (props i))%num then maxIndex (props i) else page in
  page.

Definition onEnd (i : Instance) (evt : PanEvent) (p : Pager)
    (active : list string) : Pager :=
  let page := endPage i evt p active in
  spring_translate ((- (page - initialIndex (props i))) * pageSize i p)%num p.

Definition onFinalize (i : Instance) (active : list string) : list string :=
  remove (pagerId i) active.

(** The arithmetic of [onEnd] over binary64.  [locked] is the truthiness of
    [isGestureLocked.value]; the other arguments are the numbers the handler
    reads from the event, the props and the shared values. *)
Definition isSwipingCrossAxis_end64 (crossAxisTranslate evtTranslate : D.num) : bool :=
  D.gt (D.abs crossAxisTranslate) (D.abs evtTranslate).

Definition isFling64 (locked : bool)
    (crossAxisTranslate evtTranslate evtVelocity flingVelocity : D.num) : bool :=
  if locked || isSwipingCrossAxis_end64 crossAxisTranslate evtTranslate then false
  else D.gt (D.abs evtVelocity) flingVelocity.

Definition velocityModifier64 (isFling : bool) (evtVelocity pageSize : D.num) : D.num :=
  let m := if isFling then D.div pageSize (D.ofZ 2) else D.ofZ 0 in
  if D.lt evtVelocity (D.ofZ 0) then D.mul m (D.ofZ (-1)) else m.

Definition endPage64 (isFling : bool)
    (evtVelocity translate pageSize initialIndex minIndex maxIndex : D.num) : D.num :=
  let page :=
    D.add initialIndex
      (D.mul (D.ofZ (-1))
         (D.round (D.div (D.add translate (velocityModifier64 isFling evtVelocity pageSize))
                         pageSize))) in
  let page := if D.lt page minIndex then minIndex else page in
  let page := if D.gt page maxIndex then maxIndex else page in
  page.

(* ================================================================= *)
(** ** The imperative API *)

(** The body of [setPage] after [await onLayoutPromise] has delivered
    [layoutPageSize]. *)
Definition setPage_resume (i : Instance) (index : JS.num) (animated : bool)
    (layoutPageSize : JS.num) (p : Pager) : Pager :=
  let pSize := if JS.truthy (pageSize i p) then pageSize i p else layoutPageSize in
  let updatedTranslate :=
    (index * pSize * JS.ofZ (-1) + initialIndex (props i) * pSize)%num in
  if (index <? minIndex (props i))%num || (index >? maxIndex (props i))%num then p
  else if animated then spring_translate updatedTranslate p
  else write_translate updatedTranslate p.

(** [setPage(index, {animated})]: before the first layout the call waits on
    the promise, behind the calls already waiting. *)
Definition setPage (i : Instance) (index : JS.num) (animated : bool)
    (p : Pager) : Pager :=
  match laidOut p with
  | Some layoutPageSize => setPage_resume i index animated layoutPageSize p
  | None => with_layout None (pendingSetPage p ++ [(index, animated)]) p
  end.



(** The wrapper's [onLayout]: both sizes are written; the first call also
    resolves the promise, which resumes the waiting [setPage] calls in order. *)
Definition onLayout (i : Instance) (w h : JS.num) (p : Pager) : Pager :=
  let p := with_size w h p in
  match laidOut p with
  | Some _ => p
  | None =>
      let l := if vertical (props i) then h else w in
      fold_left (fun acc call => setPage_resume i (fst call) (snd call) l acc)
                (pendingSetPage p) (with_layout (Some l) [] p)
  end.

(* ================================================================= *)
(** ** Render window, continuous page position, commit/notify loop *)

(** [[...Array(pageBuffer * 2 + 1)].map((_, i) => curIndex - (i - pageBuffer))]. *)
Definition pageIndices (i : Instance) (p : Pager) : list JS.num :=
  map (fun k : nat =>
         let bufferIndex := (ofNat k - ofNat (pageBuffer (props i)))%num in
         (curIndex p - bufferIndex)%num)
      (List.seq 0 (pageBuffer (props i) * 2 + 1)).

(** The same window over binary64. *)
Definition pageIndices64 (curIndex : D.num) (pageBuffer : nat) : list D.num :=
  map (fun k : nat =>
         let bufferIndex := D.sub (D.ofZ (Z.of_nat k)) (D.ofZ (Z.of_nat pageBuffer)) in
         D.sub curIndex bufferIndex)
      (List.seq 0 (pageBuffer * 2 + 1)).

(** The derived value that keeps [pageAnim] in step with [translate]. *)
Definition derivePageAnim (i : Instance) (p : Pager) : Pager :=
  if JS.truthy (pageSize i p) then
    with_pageAnim
      (initialIndex (props i) + (translate p / pageSize i p) * JS.ofZ (-1))%num p
  else p.

(** [onPageChangeInternal(pg)]: the user callback is called, then
    [setCurIndex(pg)]. *)
Definition onPageChangeInternal (pg : JS.num) (p : Pager) : Pager :=
  {| pageWidth := pageWidth p; pageHeight := pageHeight p;
     translate := translate p; spring := spring p;
     curIndex := pg; pageAnim := pageAnim p;
     startTranslate := startTranslate p; initTouchX := initTouchX p;
     initTouchY := initTouchY p; laidOut := laidOut p;
     pendingSetPage := pendingSetPage p; reactionPrev := reactionPrev p;
     pageChanges := pageChanges p ++ [pg] |}.

(** [cur !== prev], where [prev] is [null] on the first run. *)
Definition changed (cur : JS.num) (prev : option JS.num) : bool :=
  match prev with
  | None => true
  | Some v => negb (cur === v)%num
  end.

(** One run of the animated reaction. *)
Definition reaction (p : Pager) : Pager :=
  let cur := JS.round (pageAnim p) in
  let prev := reactionPrev p in
  let p := with_reactionPrev (Some cur) p in
  if changed cur prev then onPageChangeInternal cur p else p.

(** What one write to the position store sets off: the derived value, then
    the reaction. *)
Definition frame (i : Instance) (p : Pager) : Pager :=
  reaction (derivePageAnim i p).

(** The store driven through a series of translate values, one frame each. *)
Definition drive (i : Instance) (ts : list JS.num) (p : Pager) : Pager :=
  fold_left (fun acc t => frame i (write_translate t acc)) ts p.

(* ================================================================= *)
(** ** One mounted page ([PageWrapper]) *)



(* ================================================================= *)
(** ** The registry of mounted pagers and the provider *)

(** [[...new Set(l).values()]]: the elements of [l] in the order of their
    first occurrence. *)
Fixpoint set_values (l : list string) : list string :=
  match l with
  | [] => []
  | x :: rest => x :: remove x (set_values rest)
  end.

(** The mount effect: [updated = new Set(pagers.value); updated.add(pagerId);
    pagers.value = [...updated.values()]]. *)
Definition registerPager (id : string) (pagers : list string) : list string :=
  let updated := set_values pagers in
  if includes id updated then updated else updated ++ [id].

(** Its cleanup: the same with [updated.delete(pagerId)]. *)
Definition unregisterPager (id : string) (pagers : list string) : list string :=
  remove id (set_values pagers).

(** The value of [InfinitePagerContext].  A shared value is named by a
    label; the context default holds depth -1 and its own two mutables. *)
Record Context : Type := {
  ctxNestingDepth : Z;
  ctxActivePagers : nat;
  ctxPagers : nat
}.

(** [InfinitePagerProvider]: [rootPagers] and [rootActivePagers] are the
    shared values this provider creates for itself. *)
Definition InfinitePagerProvider (rootPagers rootActivePagers : nat)
    (ctx : Context) : Context :=
  let isRoot := Z.eqb (ctxNestingDepth ctx) (-1) in
  {| ctxNestingDepth := ctxNestingDepth ctx + 1;
     ctxActivePagers := if isRoot then rootActivePagers else ctxActivePagers ctx;
     ctxPagers := if isRoot then rootPagers else ctxPagers ctx |}.

(* ================================================================= *)
(** ** A gesture as the series of callbacks the recognizer makes *)

Inductive GestureEvent : Type :=
| EvBegin (evt : PanEvent)
| EvTouchesMove (mainTouch : Touch)
| EvUpdate (evt : PanEvent)
| EvEnd (evt : PanEvent)
| EvFinalize.

Definition dispatch (i : Instance) (ev : GestureEvent)
    (st : Pager * list string) : Pager * list string :=
  match ev with
  | EvBegin evt => onBegin i evt (fst st) (snd st)
  | EvTouchesMove t => (fst st, fst (onTouchesMove i t (fst st) (snd st)))
  | EvUpdate evt => (onUpdate i evt (fst st) (snd st), snd st)
  | EvEnd evt => (onEnd i evt (fst st) (snd st), snd st)
  | EvFinalize => (fst st, onFinalize i (snd st))
  end.

Definition run (i : Instance) (evs : list GestureEvent)
    (st : Pager * list string) : Pager * list string :=
  fold_left (fun acc ev => dispatch i ev acc) evs st.

(* ================================================================= *)
(** ** Vocabulary of the statements *)

(** A pager identity before it is written as a string: vertical or not, the
    nesting depth, the random part. *)
Definition id_vertical (x : bool * nat * string) : bool := fst (fst x).
Definition id_depth (x : bool * nat * string) : nat := snd (fst x).
Definition id_of (x : bool * nat * string) : string :=
  Ident.pagerId (id_vertical x) (id_depth x) (snd x).

(** A pager with the default props in the given orientation. *)
Definition oriented (v : bool) : Props := {|
  vertical := v;
  pageCallbackNode := pageCallbackNode defaultProps;
  syncNode := syncNode defaultProps;
  pageBuffer := pageBuffer defaultProps;
  minIndex := minIndex defaultProps;
  maxIndex := maxIndex defaultProps;
  gesturesDisabled := gesturesDisabled defaultProps;
  flingVelocity := flingVelocity defaultProps;
  bouncePct := bouncePct defaultProps;
  debugTag := debugTag defaultProps;
  width := width defaultProps;
  height := height defaultProps;
  initialIndex := initialIndex defaultProps
|}.

Definition instance (v : bool) (d : nat) (r : string) : Instance :=
  {| props := oriented v; nestingDepth := d; rnd := r |}.

(** A horizontal root pager with finite bounds, a bounce fraction and an
    initial index; everything else as by default. *)
Definition bounded (lo hi : Z) (bounce : Q) (init : Z) : Props := {|
  vertical := false;
  pageCallbackNode := None;
  syncNode := None;
  pageBuffer := 1;
  minIndex := JS.ofZ lo;
  maxIndex := JS.ofZ hi;
  gesturesDisabled := false;
  flingVelocity := JS.ofZ 500;
  bouncePct := JS.Fin bounce;
  debugTag := ""%string;
  width := None;
  height := None;
  initialIndex := JS.ofZ init
|}.

Definition root (pr : Props) : Instance :=
  {| props := pr; nestingDepth := 0; rnd := "0.5"%string |}.

Definition touchAt (x y : Z) : Touch :=
  {| touchX := JS.ofZ x; touchY := JS.ofZ y |}.


(** A pan event at the given point, with the given translation and velocity
    along x and none along y. *)
Definition panAt (x y : Z) (dx vx : Q) : PanEvent :=
  {| evX := JS.ofZ x; evY := JS.ofZ y;
     translationX := JS.Fin dx; translationY := JS.ofZ 0;
     velocityX := JS.Fin vx; velocityY := JS.ofZ 0 |}.

(** The snapshot once the pager is on screen with the given size: the
    reaction has run for the first time and the wrapper was laid out. *)
Definition ready (i : Instance) (w h : Z) : Pager :=
  frame i (onLayout i (JS.ofZ w) (JS.ofZ h) (frame i (mount i))).

(** A pager that starts on the last of the pages 0..2, without bounce and
    without debug tag, 300 wide; a touch lands at x = 100. *)
Definition lastPage : Instance := root (bounded 0 2 0 2).

Definition lastPage_began : Pager * list string :=
  onBegin lastPage (panAt 100 40 0 0) (ready lastPage 300 600) [].

(** The finger first moves 5 units back towards the interior. *)
Definition lastPage_moved : list string * bool :=
  onTouchesMove lastPage (touchAt 105 40) (fst lastPage_began) (snd lastPage_began).

(** The same pager with a bounce fraction of 3/10.  It rests on its last
    page, so the position store holds the translate of the max boundary when
    the touch lands; the first sample moves 5 units outwards. *)
Definition bouncy : Instance := root (bounded 0 2 (3 # 10) 2).

Definition bouncy_began : Pager * list string :=
  onBegin bouncy (panAt 100 40 0 0) (ready bouncy 300 600) [].

Definition bouncy_active : list string :=
  fst (onTouchesMove bouncy (touchAt 95 40) (fst bouncy_began) (snd bouncy_began)).



(** Following the spec's words: a value clamped into [[lo, hi]]. *)
Definition clamp64 (lo hi x : D.num) : D.num :=
  if D.lt x lo then lo else if D.gt x hi then hi else x.

(** A pan event with the given translation along x and y and the given
    velocity along x. *)
Definition panXY (dx dy vx : Q) : PanEvent :=
  {| evX := JS.ofZ 100; evY := JS.ofZ 40;
     translationX := JS.Fin dx; translationY := JS.Fin dy;
     velocityX := JS.Fin vx; velocityY := JS.ofZ 0 |}.

(** An unbounded pager with the default fling threshold of 500, 300 wide,
    dragged 50 units to the left and released at 600 units/s leftwards. *)
Definition flick : Instance := root defaultProps.

Definition flick_began : Pager * list string :=
  onBegin flick (panAt 100 40 0 0) (ready flick 300 600) [].

Definition flick_active : list string :=
  fst (onTouchesMove flick (touchAt 95 40) (fst flick_began) (snd flick_began)).



(** The reaction run over a series of observed page positions. *)
Definition observe (samples : list JS.num) (p : Pager) : Pager :=
  fold_left (fun acc s => reaction (with_pageAnim s acc)) samples p.

(** The reaction as a function of the observed page positions alone: the
    values it hands to the callback. *)
Fixpoint notified (prev : option JS.num) (samples : list JS.num) : list JS.num :=
  match samples with
  | [] => []
  | s :: rest =>
      let cur := JS.round s in
      if changed cur prev then cur :: notified (Some cur) rest
      else notified (Some cur) rest
  end.

(** Each element is related to the one before it, the first to [x]. *)
Fixpoint chain (A : Type) (R : A -> A -> Prop) (x : A) (l : list A) : Prop :=
  match l with
  | [] => True
  | y :: rest => R x y /\ chain R y rest
  end.

(** A sweep moves upwards or downwards, never back. *)
Definition towards (up : bool) (a b : Q) : Prop :=
  if up then a <= b else b <= a.

(** Consecutive samples are at most one page apart. *)
Definition smooth (a b : Q) : Prop := Qabs (b - a) <= 1.

(** The integers a series of rounded positions passes to the callback, the
    last committed one being [prev]. *)
Fixpoint commits (prev : Z) (zs : list Z) : list Z :=
  match zs with
  | [] => []
  | z :: rest => if Z.eqb z prev then commits z rest else z :: commits z rest
  end.

(** The same direction on rounded positions, and the strict order the
    callbacks then follow. *)
Definition towardsZ (up : bool) (a b : Z) : Prop :=
  if up then (a <= b)%Z else (b <= a)%Z.

Definition beyondZ (up : bool) (a b : Z) : Prop :=
  if up then (a < b)%Z else (b < a)%Z.

(** The [n] integers that follow [c], upwards or downwards. *)
Definition steps (up : bool) (c : Z) (n : nat) : list Z :=
  map (fun k : nat => if up then (c + 1 + Z.of_nat k)%Z else (c - 1 - Z.of_nat k)%Z)
      (List.seq 0 n).

(** Twenty quarter-page steps that take an unbounded pager, 300 wide, from
    page 0 to page 5. *)
Definition sweep_translates : list JS.num :=
  map (fun k : nat => JS.ofZ (- 75 * (1 + Z.of_nat k))) (List.seq 0 20).

(** Providers nested one inside the other, outermost first, each with the
    labels of its own two shared values. *)
Definition nest (providers : list (nat * nat)) (ctx : Context) : Context :=
  fold_left (fun c own => InfinitePagerProvider (fst own) (snd own) c) providers ctx.

(** The context a pager sees outside every provider. *)
Definition defaultContext : Context :=
  {| ctxNestingDepth := -1; ctxActivePagers := 0; ctxPagers := 0 |}.

Fixpoint no_colon (s : string) : bool :=
  match s with
  | EmptyString => true
  | String c rest => negb (Ascii.eqb c Ident.colon) && no_colon rest
  end.

(* ================================================================= *)
(** * Properties *)

(** ** Comparisons and truthiness on finite numbers *)





Lemma le_Fin (x y : Q) : (JS.Fin x <=? JS.Fin y)%num = true <-> x <= y.
Proof. apply Qle_bool_iff. Qed.


Lemma truthy_Fin_false (q : Q) : JS.truthy (JS.Fin q) = false <-> q == 0.
Proof.
  simpl. rewrite negb_false_iff. apply Qeq_bool_iff.
Qed.

Lemma truthy_ofNat (n : nat) : JS.truthy (ofNat n) = negb (Nat.eqb n 0).
Proof.
  destruct n; reflexivity.
Qed.

Lemma le_ofNat (a b : nat) : (ofNat a <=? ofNat b)%num = Nat.leb a b.
Proof.
  apply eq_true_iff_eq. unfold ofNat, JS.ofZ.
  rewrite le_Fin, Nat.leb_le, <- Zle_Qle. lia.
Qed.


(** ** Reading a pager id back *)

Lemma split_field (a rest : string) :
  no_colon a = true ->
  Ident.split Ident.colon (a ++ String Ident.colon rest)
  = a :: Ident.split Ident.colon rest.
Proof.
  induction a as [|c a IH]; simpl; intro H.
  - reflexivity.
  - apply andb_true_iff in H. destruct H as [Hc Ha].
    apply negb_true_iff in Hc. rewrite Hc, (IH Ha). reflexivity.
Qed.

Lemma no_colon_uint (u : Decimal.uint) :
  no_colon (NilEmpty.string_of_uint u) = true.
Proof.
  induction u; simpl; auto.
Qed.

Lemma Number_show_nat (n : nat) :
  Ident.Number (Some (Ident.show_nat n)) = ofNat n.
Proof.
  unfold Ident.Number, Ident.show_nat.
  rewrite NilEmpty.usu, Unsigned.of_to. reflexivity.
Qed.

Lemma no_colon_orientation (v : bool) : no_colon (Ident.orientation_of v) = true.
Proof. destruct v; reflexivity. Qed.

Lemma split_pagerId (v : bool) (d : nat) (r : string) :
  Ident.split Ident.colon (Ident.pagerId v d r)
  = Ident.orientation_of v :: Ident.show_nat d :: Ident.split Ident.colon r.
Proof.
  unfold Ident.pagerId.
  change (":" ++ Ident.show_nat d ++ ":" ++ r)%string
    with (String Ident.colon (Ident.show_nat d ++ String Ident.colon r)).
  rewrite split_field by apply no_colon_orientation.
  rewrite split_field by apply no_colon_uint.
  reflexivity.
Qed.

Lemma field0_pagerId (v : bool) (d : nat) (r : string) :
  field 0 (Ident.pagerId v d r) = Some (Ident.orientation_of v).
Proof. unfold field. rewrite split_pagerId. reflexivity. Qed.

Lemma field1_pagerId (v : bool) (d : nat) (r : string) :
  field 1 (Ident.pagerId v d r) = Some (Ident.show_nat d).
Proof. unfold field. rewrite split_pagerId. reflexivity. Qed.

Lemma orientation_eqb (v w : bool) :
  String.eqb (Ident.orientation_of v) (Ident.orientation_of w) = Bool.eqb v w.
Proof. destruct v, w; reflexivity. Qed.

(** Truthiness of the lock, as a boolean formula. *)
Lemma locked_bool (i : Instance) (active : list string) :
  JS.to_bool (isGestureLocked i active)
  = negb (Nat.eqb (List.length active) 0) && negb (isDeepestInOrientation i active).
Proof.
  unfold isGestureLocked, JS.and.
  cbn [JS.to_bool]. rewrite truthy_ofNat.
  destruct (Nat.eqb (List.length active) 0) eqn:E; cbn [negb andb].
  - cbn [JS.to_bool]. rewrite truthy_ofNat, E. reflexivity.
  - reflexivity.
Qed.

(** ** Arbitration *)

Lemma deepest_on_ids (i : Instance) (ids : list (bool * nat * string)) :
  isDeepestInOrientation i (map id_of ids)
  = forallb (fun x => implb (Bool.eqb (id_vertical x) (vertical (props i)))
                            (Nat.leb (id_depth x) (nestingDepth i))) ids.
Proof.
  unfold isDeepestInOrientation.
  induction ids as [|[[v d] r] ids IH]; [reflexivity|].
  change (map id_of ((v, d, r) :: ids))
    with (Ident.pagerId v d r :: map id_of ids).
  cbn [filter forallb id_vertical id_depth fst snd].
  rewrite field0_pagerId. cbn [str_is]. unfold orientation at 1.
  rewrite orientation_eqb.
  destruct (Bool.eqb v (vertical (props i))); cbn [implb].
  - cbn [forallb]. rewrite field1_pagerId, Number_show_nat, le_ofNat, IH.
    reflexivity.
  - exact IH.
Qed.

(** C3.  A pager of orientation O and depth D is locked exactly when the
    active list is non-empty and holds a pager of orientation O nested
    deeper than D.  A horizontal depth-0 pager and a vertical depth-1 pager,
    both active, lock neither; two active horizontal pagers of depths 0 and 1
    lock the one of depth 0 only. *)
Theorem C3_locked_iff_deeper_same_orientation :
  (forall (i : Instance) (ids : list (bool * nat * string)),
      JS.to_bool (isGestureLocked i (map id_of ids)) = true
      <-> (map id_of ids <> []
           /\ exists x, In x ids
                        /\ id_vertical x = vertical (props i)
                        /\ (nestingDepth i < id_depth x)%nat))
  /\ (forall (r0 r1 : string),
         let h0 := instance false 0 r0 in
         let v1 := instance true 1 r1 in
         JS.to_bool (isGestureLocked h0 [pagerId h0; pagerId v1]) = false
         /\ JS.to_bool (isGestureLocked v1 [pagerId h0; pagerId v1]) = false)
  /\ (forall (r0 r1 : string),
         let h0 := instance false 0 r0 in
         let h1 := instance false 1 r1 in
         JS.to_bool (isGestureLocked h0 [pagerId h0; pagerId h1]) = true
         /\ JS.to_bool (isGestureLocked h1 [pagerId h0; pagerId h1]) = false).
Proof.
  split; [|split].
  - intros i ids. rewrite locked_bool, deepest_on_ids.
    rewrite andb_true_iff, !negb_true_iff.
    split.
    + intros [_ Hd].
      assert (Hex : existsb (fun x => negb (implb (Bool.eqb (id_vertical x) (vertical (props i)))
                                                (Nat.leb (id_depth x) (nestingDepth i)))) ids = true).
      { clear -Hd. induction ids as [|x ids IH]; cbn in *; [discriminate|].
        destruct (implb _ _); cbn in *; auto. }
      apply existsb_exists in Hex. destruct Hex as [x [Hin Hx]].
      split.
      * destruct ids; [contradiction|discriminate].
      * exists x. split; [exact Hin|].
        apply negb_true_iff in Hx.
        destruct (Bool.eqb (id_vertical x) (vertical (props i))) eqn:Ev;
          cbn in Hx; [|discriminate].
        apply eqb_prop in Ev. split; [exact Ev|].
        apply Nat.leb_gt in Hx. exact Hx.
    + intros [Hne [x [Hin [Ev Hd]]]]. split.
      * destruct ids; [contradiction|reflexivity].
      * destruct (forallb _ ids) eqn:F; [|reflexivity].
        rewrite forallb_forall in F. specialize (F x Hin).
        rewrite Ev, eqb_reflx in F. cbn in F.
        apply Nat.leb_le in F. lia.
  - intros r0 r1. split; reflexivity.
  - intros r0 r1. split; reflexivity.
Qed.

(** ** Membership in the active list *)

Lemma isAtEdgeAnim_truthy : JS.to_bool isAtEdgeAnim = true.
Proof. reflexivity. Qed.

(** [isAtEdgeAnim.value] is an object, so the guard of [onBegin] is never
    taken: Begin leaves the active list alone for every pager. *)
Lemma onBegin_active (i : Instance) (evt : PanEvent) (p : Pager)
    (active : list string) :
  snd (onBegin i evt p active) = active.
Proof.
  unfold onBegin. rewrite isAtEdgeAnim_truthy. reflexivity.
Qed.

Lemma includes_In (id : string) (active : list string) :
  includes id active = true <-> In id active.
Proof.
  unfold includes. rewrite existsb_exists. split.
  - intros [x [Hin Hx]]. apply String.eqb_eq in Hx. subst. exact Hin.
  - intro Hin. exists id. split; [exact Hin|apply String.eqb_refl].
Qed.

Lemma In_push (id : string) (active : list string) : In id (push id active).
Proof. unfold push. apply in_or_app. right. left. reflexivity. Qed.

Lemma In_remove (id x : string) (active : list string) :
  In x (remove id active) <-> In x active /\ x <> id.
Proof.
  unfold remove. rewrite filter_In, negb_true_iff, String.eqb_neq. reflexivity.
Qed.

Lemma onTouchesMove_ok_member (i : Instance) (t : Touch) (p : Pager)
    (active : list string) :
  shouldFailSelf i t p active = false ->
  In (pagerId i) (fst (onTouchesMove i t p active))
  /\ snd (onTouchesMove i t p active) = false.
Proof.
  intro H. unfold onTouchesMove. rewrite H. cbn [fst snd]. split; [|reflexivity].
  destruct (includes (pagerId i) active) eqn:E; cbn [negb].
  - apply includes_In. exact E.
  - apply In_push.
Qed.

(** With a debug tag the failing branch does take the pager out. *)
Lemma onTouchesMove_fail_tagged (i : Instance) (t : Touch) (p : Pager)
    (active : list string) :
  str_truthy (debugTag (props i)) = true ->
  shouldFailSelf i t p active = true ->
  onTouchesMove i t p active = (remove (pagerId i) active, true).
Proof.
  intros Htag H. unfold onTouchesMove. rewrite H, Htag. reflexivity.
Qed.




(** C2.  With an empty debug tag a failing touch-move sample calls
    [mgr.fail()] and leaves the active list exactly as it was: the pager is
    not taken out. *)
Theorem C2_fail_untagged_keeps_active :
  forall (i : Instance) (t : Touch) (p : Pager) (active : list string),
    debugTag (props i) = ""%string ->
    shouldFailSelf i t p active = true ->
    onTouchesMove i t p active = (active, true).
Proof.
  intros i t p active Htag H. unfold onTouchesMove. rewrite H, Htag. reflexivity.
Qed.

(** On the last page the first sample (5 units inwards) is accepted and
    registers the pager; the next sample (10 units past the touch-down point,
    outwards) fails, and the pager is still registered. *)
Lemma C2_fail_untagged_witness :
  lastPage_moved = ([pagerId lastPage], false)
  /\ onTouchesMove lastPage (touchAt 90 40) (fst lastPage_began) (fst lastPage_moved)
     = (fst lastPage_moved, true).
Proof.
  split; [reflexivity|].
  apply (C2_fail_untagged_keeps_active lastPage (touchAt 90 40)
           (fst lastPage_began) (fst lastPage_moved)); reflexivity.
Defined.

(** ** Arithmetic on finite numbers *)

Lemma eqv_refl (a : JS.num) : a =~= a.
Proof. destruct a; simpl; try exact I. reflexivity. Qed.



(** ** Edge policy in [onUpdate] *)

Section Update.

Variables (i : Instance) (evt : PanEvent) (p : Pager) (active : list string).
Variables (s e ps i0 b : Q).

Hypothesis Hstart : startTranslate p = JS.Fin s.
Hypothesis Hevt : primaryTranslation i evt = JS.Fin e.
Hypothesis Hsize : pageSize i p = JS.Fin ps.
Hypothesis Hinit : initialIndex (props i) = JS.Fin i0.
Hypothesis Hbounce : bouncePct (props i) = JS.Fin b.
Hypothesis Hps : 0 < ps.
Hypothesis Hfree : JS.to_bool (isGestureLocked i active) = false.
Hypothesis Hmain : isSwipingCrossAxis_update i evt = false.

(** The raw translate is [s + e]; the candidate page is
    [i0 + - (s + e) / ps]. *)

Lemma onUpdate_writes :
  onUpdate i evt p active = write_translate (updateTranslate i evt p) p.
Proof. unfold onUpdate. rewrite Hfree, Hmain. reflexivity. Qed.




End Update.



(** ** The bounce is linear in the overflow *)




(** ** Release: fling and settle target *)



(** The order of doubles, from the specification of the comparisons. *)
Module DFacts.

Import Floats.

Lemma SFcompare_antisym (x y : spec_float) :
  SFcompare y x = option_map CompOpp (SFcompare x y).
Proof.
  destruct x as [sx|sx| |sx mx ex], y as [sy|sy| |sy my ey]; cbn;
    try reflexivity;
    try (destruct sx; reflexivity); try (destruct sy; reflexivity);
    try (destruct sx, sy; reflexivity).
  pose proof (Pos.compare_antisym mx my) as Hm. unfold Pos.compare in Hm.
  destruct sx, sy; cbn; try reflexivity.
  - rewrite (Z.compare_antisym ex ey).
    destruct (ex ?= ey)%Z; cbn; try reflexivity.
    rewrite Hm. reflexivity.
  - rewrite (Z.compare_antisym ex ey).
    destruct (ex ?= ey)%Z; cbn; try reflexivity.
    rewrite Hm. destruct (Pos.compare_cont Eq mx my); reflexivity.
Qed.

Lemma le_not_gt (a b : D.num) : D.le a b = true -> D.gt a b = false.
Proof.
  unfold D.le, D.gt, D.lt. rewrite leb_spec, ltb_spec. unfold SFleb, SFltb.
  rewrite (SFcompare_antisym (Prim2SF a) (Prim2SF b)).
  destruct (SFcompare (Prim2SF a) (Prim2SF b)) as [[]|]; cbn; congruence.
Qed.

Lemma not_nan_spec (a : D.num) : D.is_nan a = false -> Prim2SF a <> S754_nan.
Proof.
  unfold D.is_nan, PrimFloat.is_nan. rewrite FloatAxioms.eqb_spec. unfold SFeqb.
  intros H E. rewrite E in H. discriminate.
Qed.

Lemma not_lt_le (a b : D.num) :
  D.is_nan a = false -> D.is_nan b = false -> D.lt a b = false -> D.le b a = true.
Proof.
  intros Ha Hb. apply not_nan_spec in Ha, Hb.
  unfold D.lt, D.le. rewrite leb_spec, ltb_spec. unfold SFleb, SFltb.
  rewrite (SFcompare_antisym (Prim2SF a) (Prim2SF b)).
  destruct (Prim2SF a) as [s|s| |s m e], (Prim2SF b) as [s'|s'| |s' m' e'];
    try congruence; cbn;
    repeat match goal with
           | |- context [if ?s then _ else _] => destruct s; cbn
           | |- context [match (?x ?= ?y)%Z with _ => _ end] => destruct (x ?= y)%Z; cbn
           | |- context [Pos.compare_cont _ ?x ?y] => destruct (Pos.compare_cont Eq x y); cbn
           end; congruence.
Qed.

Lemma le_not_nan (a b : D.num) :
  D.le a b = true -> D.is_nan a = false /\ D.is_nan b = false.
Proof.
  unfold D.le, D.is_nan, PrimFloat.is_nan. rewrite leb_spec, !FloatAxioms.eqb_spec.
  unfold SFleb, SFeqb.
  destruct (Prim2SF a) as [s|s| |s m e], (Prim2SF b) as [s'|s'| |s' m' e']; cbn;
    try discriminate; intros _; split;
    repeat match goal with
           | |- context [if ?s then _ else _] => destruct s; cbn
           end;
    rewrite ?Z.compare_refl, ?Pos.compare_cont_refl; reflexivity.
Qed.

Lemma le_refl (a : D.num) : D.is_nan a = false -> D.le a a = true.
Proof.
  intro H. apply (@not_lt_le a a H H).
  unfold D.lt. rewrite ltb_spec. unfold SFltb.
  pose proof (SFcompare_antisym (Prim2SF a) (Prim2SF a)) as E.
  destruct (SFcompare (Prim2SF a) (Prim2SF a)) as [[]|]; cbn in *;
    try reflexivity; discriminate.
Qed.

(** Integers below 2^53 in magnitude: conversion and subtraction are
    exact. *)

Local Open Scope Z_scope.

Lemma digits2_bounds (p : positive) :
  2 ^ (Z.pos (digits2_pos p) - 1) <= Z.pos p < 2 ^ Z.pos (digits2_pos p).
Proof.
  induction p as [p IH|p IH|]; cbn [digits2_pos].
  - rewrite Pos2Z.inj_succ.
    replace (Z.succ (Z.pos (digits2_pos p)) - 1) with (Z.succ (Z.pos (digits2_pos p) - 1)) by lia.
    rewrite !Z.pow_succ_r by lia. lia.
  - rewrite Pos2Z.inj_succ.
    replace (Z.succ (Z.pos (digits2_pos p)) - 1) with (Z.succ (Z.pos (digits2_pos p) - 1)) by lia.
    rewrite !Z.pow_succ_r by lia. lia.
  - cbn. lia.
Qed.

Lemma iter_xO_Z (m d : positive) : Z.pos (Pos.iter xO m d) = Z.pos m * 2 ^ Z.pos d.
Proof.
  induction d as [|d IH] using Pos.peano_ind.
  - cbn. lia.
  - rewrite Pos.iter_succ, Pos2Z.inj_succ, Z.pow_succ_r by lia.
    rewrite Pos2Z.inj_xO, IH. lia.
Qed.

Lemma digits2_iter_xO (m d : positive) :
  digits2_pos (Pos.iter xO m d) = (digits2_pos m + d)%positive.
Proof.
  induction d as [|d IH] using Pos.peano_ind.
  - cbn. lia.
  - rewrite Pos.iter_succ. cbn [digits2_pos]. rewrite IH. lia.
Qed.

Lemma iter_pos_iter (A : Type) (f : A -> A) (p : positive) (x : A) :
  iter_pos f p x = Pos.iter f x p.
Proof.
  revert x. induction p as [p IH|p IH|]; intro x; cbn [iter_pos Pos.iter].
  - rewrite !IH. rewrite <- !Pos.iter_swap. reflexivity.
  - rewrite !IH. reflexivity.
  - reflexivity.
Qed.

Lemma shr_exact (m n : positive) :
  iter_pos shr_1 n {| shr_m := Z.pos (Pos.iter xO m n); shr_r := false; shr_s := false |}
  = {| shr_m := Z.pos m; shr_r := false; shr_s := false |}.
Proof.
  rewrite iter_pos_iter. revert m.
  induction n as [|n IH] using Pos.peano_ind; intro m.
  - reflexivity.
  - rewrite Pos.iter_succ_r. rewrite Pos.iter_succ. cbn [shr_1 orb].
    apply IH.
Qed.

(** A mantissa of 53 digits at an exponent within range is its own
    rounding. *)
Lemma binary_round_aux_id (s : bool) (m : positive) (fe : Z) :
  digits2_pos m = 53%positive -> -1074 <= fe <= 971 ->
  binary_round_aux prec emax s (Z.pos m) fe loc_Exact = S754_finite s m fe.
Proof.
  intros Hd Hfe. unfold binary_round_aux, shr_fexp. cbn [Zdigits2 shr_record_of_loc].
  rewrite Hd.
  assert (Hf : fexp prec emax (53 + fe) = fe).
  { unfold fexp, emin, prec, emax. lia. }
  rewrite Hf, Z.sub_diag. cbn [shr shr_m loc_of_shr_record round_nearest_even
                                  Zdigits2 shr_record_of_loc].
  rewrite Hd, Hf, Z.sub_diag. cbn [shr shr_m].
  replace (fe <=? emax - prec) with true; [reflexivity|].
  symmetry. apply Z.leb_le. unfold emax, prec. lia.
Qed.

Lemma binary_round_aux_shift (s : bool) (m n : positive) (fe : Z) :
  digits2_pos m = 53%positive -> -1074 <= fe <= 971 ->
  binary_round_aux prec emax s (Z.pos (Pos.iter xO m n)) (fe - Z.pos n) loc_Exact
  = S754_finite s m fe.
Proof.
  intros Hd Hfe. unfold binary_round_aux, shr_fexp. cbn [Zdigits2 shr_record_of_loc].
  rewrite digits2_iter_xO, Hd.
  assert (Hf : fexp prec emax (Z.pos (53 + n) + (fe - Z.pos n)) = fe).
  { unfold fexp, emin, prec, emax. lia. }
  rewrite Hf.
  replace (fe - (fe - Z.pos n)) with (Z.pos n) by lia.
  cbn [shr]. rewrite shr_exact.
  cbn [shr_m loc_of_shr_record round_nearest_even Zdigits2 shr_record_of_loc].
  rewrite Hd.
  replace (fe - Z.pos n + Z.pos n) with fe by lia.
  assert (Hf' : fexp prec emax (53 + fe) = fe).
  { unfold fexp, emin, prec, emax. lia. }
  rewrite Hf', Z.sub_diag. cbn [shr shr_m].
  replace (fe <=? emax - prec) with true; [reflexivity|].
  symmetry. apply Z.leb_le. unfold emax, prec. lia.
Qed.

Lemma iter_xO_of_Z (p m : positive) (k : Z) :
  0 < k -> Z.pos p * 2 ^ k = Z.pos m -> m = Pos.iter xO p (Z.to_pos k).
Proof.
  intros Hk H. apply Pos2Z.inj. rewrite iter_xO_Z, Z2Pos.id by exact Hk.
  symmetry. exact H.
Qed.

(** Rounding a mantissa that is a 53-digit one shifted either way gives the
    53-digit one. *)
Lemma binary_round_exact (s : bool) (p m : positive) (e fe : Z) :
  digits2_pos m = 53%positive -> -1074 <= fe <= 971 ->
  (fe <= e /\ Z.pos p * 2 ^ (e - fe) = Z.pos m)
  \/ (e <= fe /\ Z.pos p = Z.pos m * 2 ^ (fe - e)) ->
  binary_round prec emax s p e = S754_finite s m fe.
Proof.
  intros Hd Hfe H.
  assert (Hsame : e = fe -> p = m -> binary_round prec emax s p e = S754_finite s m fe).
  { intros -> ->. unfold binary_round. rewrite Hd.
    assert (Hf : fexp prec emax (53 + fe) = fe).
    { unfold fexp, emin, prec, emax. lia. }
    rewrite Hf. unfold shl_align. rewrite Z.sub_diag.
    apply binary_round_aux_id; assumption. }
  destruct H as [[Hle H]|[Hle H]].
  - destruct (Z.eq_dec e fe) as [E|E].
    + apply Hsame; [exact E|]. subst e. rewrite Z.sub_diag in H.
      apply Pos2Z.inj. lia.
    + assert (Hk : 0 < e - fe) by lia.
      pose proof (iter_xO_of_Z p Hk H) as Hm. subst m.
      rewrite digits2_iter_xO in Hd.
      unfold binary_round.
      assert (Hf : fexp prec emax (Z.pos (digits2_pos p) + e) = fe).
      { assert (Z.pos (digits2_pos p) + (e - fe) = 53).
        { rewrite <- (Z2Pos.id (e - fe)) by exact Hk.
          rewrite <- Pos2Z.inj_add, Hd. reflexivity. }
        unfold fexp, emin, prec, emax. lia. }
      rewrite Hf. unfold shl_align.
      replace (fe - e) with (Z.neg (Z.to_pos (e - fe))) by lia.
      apply binary_round_aux_id; [|exact Hfe].
      rewrite digits2_iter_xO. exact Hd.
  - destruct (Z.eq_dec e fe) as [E|E].
    + apply Hsame; [exact E|]. subst e. rewrite Z.sub_diag in H.
      apply Pos2Z.inj. lia.
    + assert (Hk : 0 < fe - e) by lia.
      assert (Hp : p = Pos.iter xO m (Z.to_pos (fe - e))).
      { apply (iter_xO_of_Z m Hk). symmetry. exact H. }
      subst p. unfold binary_round. rewrite digits2_iter_xO, Hd.
      assert (Hf : fexp prec emax (Z.pos (53 + Z.to_pos (fe - e)) + e) = fe).
      { rewrite Pos2Z.inj_add, Z2Pos.id by exact Hk.
        unfold fexp, emin, prec, emax. lia. }
      rewrite Hf. unfold shl_align.
      replace (fe - e) with (Z.pos (Z.to_pos (fe - e))) at 1 by lia.
      replace e with (fe - Z.pos (Z.to_pos (fe - e))) at 2 by lia.
      apply binary_round_aux_shift; assumption.
Qed.

Lemma binary_normalize_exact (M : Z) (m : positive) (e fe : Z) :
  M <> 0 ->
  digits2_pos m = 53%positive -> -1074 <= fe <= 971 ->
  (fe <= e /\ Z.abs M * 2 ^ (e - fe) = Z.pos m)
  \/ (e <= fe /\ Z.abs M = Z.pos m * 2 ^ (fe - e)) ->
  binary_normalize prec emax M e false = S754_finite (M <? 0) m fe.
Proof.
  intros HM Hd Hfe H. destruct M as [|P|P]; [contradiction| |];
    cbn [binary_normalize Z.abs Z.ltb Z.compare] in *;
    apply binary_round_exact; assumption.
Qed.

(** The 53-digit mantissa and the exponent of a positive integer below
    2^53. *)
Lemma norm53 (v : Z) :
  0 < v < 2 ^ 53 ->
  exists (m : positive) (fe : Z),
    digits2_pos m = 53%positive /\ -52 <= fe <= 0 /\ Z.pos m = v * 2 ^ (- fe).
Proof.
  intros Hv. destruct v as [|p|p]; try lia.
  pose proof (digits2_bounds p) as Hb.
  assert (Hd : Z.pos (digits2_pos p) <= 53).
  { destruct (Z_le_gt_dec (Z.pos (digits2_pos p)) 53) as [H|H]; [exact H|].
    assert (2 ^ 53 <= 2 ^ (Z.pos (digits2_pos p) - 1))
      by (apply Z.pow_le_mono_r; lia).
    lia. }
  destruct (Z.eq_dec (Z.pos (digits2_pos p)) 53) as [E|E].
  - exists p, 0. split; [apply Pos2Z.inj; exact E|]. split; [lia|].
    cbn. lia.
  - exists (Pos.iter xO p (Z.to_pos (53 - Z.pos (digits2_pos p)))),
           (Z.pos (digits2_pos p) - 53).
    split; [|split].
    + rewrite digits2_iter_xO. apply Pos2Z.inj.
      rewrite Pos2Z.inj_add, Z2Pos.id by lia. lia.
    + lia.
    + rewrite iter_xO_Z, Z2Pos.id by lia. f_equal. f_equal. lia.
Qed.

Lemma canon_finite (v : Z) :
  v <> 0 -> Z.abs v < 2 ^ 53 ->
  exists (m : positive) (fe : Z),
    D.canon v = S754_finite (v <? 0) m fe
    /\ digits2_pos m = 53%positive /\ -52 <= fe <= 0
    /\ Z.pos m = Z.abs v * 2 ^ (- fe).
Proof.
  intros Hnz Hv.
  destruct (@norm53 (Z.abs v)) as [m [fe [Hd [Hfe Hm]]]]; [lia|].
  exists m, fe. split; [|split; [exact Hd|split; [exact Hfe|exact Hm]]].
  apply binary_normalize_exact; [exact Hnz|exact Hd|lia|].
  left. split; [lia|]. replace (0 - fe) with (- fe) by lia. symmetry. exact Hm.
Qed.

Lemma canon_opp (v : Z) : Z.abs v < 2 ^ 53 -> SFopp (D.canon v) = D.canon (- v) \/ v = 0.
Proof.
  intro Hv. destruct (Z.eq_dec v 0) as [E|E]; [right; exact E|left].
  destruct (@canon_finite v E Hv) as [m [fe [Hc [Hd [Hfe Hm]]]]].
  rewrite Hc. cbn [SFopp]. symmetry.
  replace (negb (v <? 0)) with (- v <? 0).
  - apply binary_normalize_exact; [lia|exact Hd|lia|].
    left. split; [lia|]. replace (0 - fe) with (- fe) by lia.
    rewrite Z.abs_opp. symmetry. exact Hm.
  - destruct (Z.ltb_spec v 0), (Z.ltb_spec (- v) 0); cbn; try reflexivity; lia.
Qed.

Lemma shl_align_val (m : positive) (e ez : Z) :
  ez <= e -> Z.pos (fst (shl_align m e ez)) = Z.pos m * 2 ^ (e - ez).
Proof.
  intro H. unfold shl_align.
  destruct (Z.eq_dec ez e) as [E|E].
  - subst. rewrite Z.sub_diag. cbn. lia.
  - replace (ez - e) with (Z.neg (Z.to_pos (e - ez))) by lia.
    cbn [fst]. rewrite iter_xO_Z, Z2Pos.id by lia. reflexivity.
Qed.

Lemma cond_Zopp_abs (v k : Z) : cond_Zopp (v <? 0) (Z.abs v * k) = v * k.
Proof.
  unfold cond_Zopp. destruct (Z.ltb_spec v 0); lia.
Qed.

Lemma SFsub_exact (a b : Z) :
  Z.abs a < 2 ^ 53 -> Z.abs b < 2 ^ 53 -> Z.abs (a - b) < 2 ^ 53 ->
  SFsub prec emax (D.canon a) (D.canon b) = D.canon (a - b).
Proof.
  intros Ha Hb Hv.
  destruct (Z.eq_dec b 0) as [Eb|Eb].
  { subst b. rewrite Z.sub_0_r.
    destruct (Z.eq_dec a 0) as [Ea|Ea]; [subst a; reflexivity|].
    destruct (@canon_finite a Ea Ha) as [m [fe [Hc _]]]. rewrite Hc. reflexivity. }
  destruct (@canon_finite b Eb Hb) as [mb [eb [Hcb [Hdb [Heb Hmb]]]]].
  destruct (Z.eq_dec a 0) as [Ea|Ea].
  { subst a. change (0 - b) with (- b).
    destruct (@canon_opp b Hb) as [H|H]; [|contradiction].
    rewrite <- H, Hcb. reflexivity. }
  destruct (@canon_finite a Ea Ha) as [ma [ea [Hca [Hda [Hea Hma]]]]].
  rewrite Hca, Hcb. cbn [SFsub].
  set (ez := Z.min ea eb).
  assert (Hez : -52 <= ez <= 0) by (unfold ez; lia).
  rewrite (@shl_align_val ma ea ez) by (unfold ez; lia).
  rewrite (@shl_align_val mb eb ez) by (unfold ez; lia).
  rewrite Hma, Hmb, <- !Z.mul_assoc, <- !Z.pow_add_r by lia.
  replace (- ea + (ea - ez)) with (- ez) by lia.
  replace (- eb + (eb - ez)) with (- ez) by lia.
  rewrite !cond_Zopp_abs, <- Z.mul_sub_distr_r.
  destruct (Z.eq_dec (a - b) 0) as [E0|E0].
  { rewrite E0. reflexivity. }
  destruct (@canon_finite (a - b) E0 Hv) as [mv [ev [Hcv [Hdv [Hev Hmv]]]]].
  rewrite Hcv.
  assert (Hpow : 0 < 2 ^ (- ez)) by (apply Z.pow_pos_nonneg; lia).
  replace (a - b <? 0) with ((a - b) * 2 ^ (- ez) <? 0).
  - apply binary_normalize_exact; [nia|exact Hdv|lia|].
    rewrite Z.abs_mul, (Z.abs_eq (2 ^ (- ez))) by lia.
    destruct (Z_le_gt_dec ev ez) as [Hc|Hc].
    + left. split; [exact Hc|].
      rewrite <- Z.mul_assoc, <- Z.pow_add_r by lia.
      replace (- ez + (ez - ev)) with (- ev) by lia. symmetry. exact Hmv.
    + right. split; [lia|].
      rewrite Hmv, <- Z.mul_assoc, <- Z.pow_add_r by lia.
      f_equal. f_equal. lia.
  - destruct (Z.ltb_spec ((a - b) * 2 ^ (- ez)) 0), (Z.ltb_spec (a - b) 0);
      try reflexivity; nia.
Qed.

Lemma of_uint63_canon (z : Z) :
  0 <= z < 2 ^ 53 -> Prim2SF (PrimFloat.of_uint63 (Uint63.of_Z z)) = D.canon z.
Proof.
  intro Hz. rewrite of_uint63_spec. unfold D.canon. f_equal.
  change (Uint63Axioms.to_Z (Uint63.of_Z z)) with (Uint63.to_Z (Uint63.of_Z z)).
  rewrite Uint63.of_Z_spec. apply Z.mod_small.
  split; [lia|]. apply Z.lt_trans with (2 ^ 53); [lia|]. reflexivity.
Qed.

Lemma ofZ_canon (z : Z) : Z.abs z < 2 ^ 53 -> Prim2SF (D.ofZ z) = D.canon z.
Proof.
  intro Hz. unfold D.ofZ. destruct (Z.ltb_spec z 0) as [Hneg|Hpos].
  - rewrite opp_spec, of_uint63_canon by lia.
    destruct (@canon_opp (- z)) as [H|H]; [lia| |lia].
    rewrite H, Z.opp_involutive. reflexivity.
  - apply of_uint63_canon. lia.
Qed.

Lemma sub_canon (x y : D.num) (a b : Z) :
  Z.abs a < 2 ^ 53 -> Z.abs b < 2 ^ 53 -> Z.abs (a - b) < 2 ^ 53 ->
  Prim2SF x = D.canon a -> Prim2SF y = D.canon b ->
  Prim2SF (D.sub x y) = D.canon (a - b).
Proof.
  intros Ha Hb Hv Hx Hy. unfold D.sub. rewrite sub_spec, Hx, Hy.
  apply SFsub_exact; assumption.
Qed.

Lemma toZ_canon (x : D.num) (v : Z) :
  Z.abs v < 2 ^ 53 -> Prim2SF x = D.canon v -> D.toZ x = Some v.
Proof.
  intros Hv Hx. unfold D.toZ. rewrite Hx.
  destruct (Z.eq_dec v 0) as [E|E]; [subst v; reflexivity|].
  destruct (@canon_finite v E Hv) as [m [fe [Hc [Hd [Hfe Hm]]]]].
  rewrite Hc. cbv zeta.
  assert (Hn : (if v <? 0 then Z.neg m else Z.pos m) = v * 2 ^ (- fe)).
  { destruct (Z.ltb_spec v 0).
    - change (Z.neg m) with (- Z.pos m). rewrite Hm. rewrite Z.abs_neq by lia. lia.
    - rewrite Hm, Z.abs_eq by lia. reflexivity. }
  rewrite Hn.
  destruct (Z.leb_spec 0 fe) as [H0|H0].
  - assert (fe = 0) by lia. subst fe. cbn. f_equal. lia.
  - assert (Hp : 0 < 2 ^ (- fe)) by (apply Z.pow_pos_nonneg; lia).
    rewrite Hm, Z.mod_mul by lia. cbn [Z.eqb].
    rewrite Z.div_mul by lia. reflexivity.
Qed.

(** Within the safe integers the double-precision window holds the exact
    integers. *)
Lemma pageIndices64_exact (c : Z) (r : nat) :
  Z.abs c + Z.of_nat r < 2 ^ 53 ->
  2 * Z.of_nat r + 1 < 2 ^ 32 ->
  map D.toZ (pageIndices64 (D.ofZ c) r)
  = map (fun k : nat => Some (c - (Z.of_nat k - Z.of_nat r)))
        (List.seq 0 (r * 2 + 1)).
Proof.
  intros Hc Hr. unfold pageIndices64. rewrite map_map.
  apply map_ext_in. intros k Hk. apply in_seq in Hk. cbv zeta.
  assert (H32 : 2 ^ 32 < 2 ^ 53) by reflexivity.
  apply toZ_canon; [lia|].
  apply sub_canon; try lia.
  - apply ofZ_canon. lia.
  - apply sub_canon; try lia; apply ofZ_canon; lia.
Qed.

Local Close Scope Z_scope.

End DFacts.

Lemma isFling64_value (cross primary velocity threshold : D.num) :
  isSwipingCrossAxis_end64 cross primary = false ->
  isFling64 false cross primary velocity threshold = D.gt (D.abs velocity) threshold.
Proof. intro H. unfold isFling64. rewrite H. reflexivity. Qed.

Lemma endPage64_clamped (fling : bool)
    (velocity translate pageSize initialIndex lo hi : D.num) :
  D.le lo hi = true ->
  endPage64 fling velocity translate pageSize initialIndex lo hi
  = clamp64 lo hi
      (D.add initialIndex
         (D.mul (D.ofZ (-1))
            (D.round (D.div (D.add translate (velocityModifier64 fling velocity pageSize))
                            pageSize)))).
Proof.
  intro Hord. unfold endPage64, clamp64.
  destruct (D.lt _ lo); [|reflexivity].
  rewrite (@DFacts.le_not_gt lo hi Hord). reflexivity.
Qed.

Lemma clamp64_in_range (lo hi x : D.num) :
  D.le lo hi = true ->
  D.is_nan (clamp64 lo hi x) = false ->
  D.le lo (clamp64 lo hi x) = true /\ D.le (clamp64 lo hi x) hi = true.
Proof.
  intros Hord. destruct (@DFacts.le_not_nan lo hi Hord) as [Hlo Hhi].
  unfold clamp64.
  destruct (D.lt x lo) eqn:E1.
  - intros _. split; [apply DFacts.le_refl; exact Hlo|exact Hord].
  - destruct (D.gt x hi) eqn:E2.
    + intros _. split; [exact Hord|apply DFacts.le_refl; exact Hhi].
    + intro Hx. split.
      * apply DFacts.not_lt_le; assumption.
      * apply DFacts.not_lt_le; assumption.
Qed.

(** C4 (as amended).  In double precision, for a release that is not locked
    and whose cross-axis travel is not larger in magnitude than its
    primary-axis travel: it is a fling exactly when the absolute primary-axis
    velocity exceeds [flingVelocity]; the nudge is half a page, negated when
    the velocity is negative, for a fling and zero otherwise; with
    [minIndex <= maxIndex] the page settled on is
    [initialIndex + -1 * Math.round((translate + nudge) / pageSize)] clamped
    into [[minIndex, maxIndex]], and lies within the bounds unless it is NaN.
    With threshold 500, velocity -600, translate -50 and page size 300 the
    target is page 1, one beyond page 0 on which the release without fling
    settles.  The sum and the quotient are the machine's: with page size
    4320/11, translate three pages and a forward fling the quotient is
    3.4999999999999996 and rounds to 3. *)
Theorem C4_release_fling_and_target :
  (forall (cross primary velocity threshold translate pageSize initialIndex lo hi : D.num),
      isSwipingCrossAxis_end64 cross primary = false ->
      D.le lo hi = true ->
      (isFling64 false cross primary velocity threshold = true
       <-> D.gt (D.abs velocity) threshold = true)
      /\ (D.lt velocity (D.ofZ 0) = true ->
          velocityModifier64 true velocity pageSize
          = D.mul (D.div pageSize (D.ofZ 2)) (D.ofZ (-1)))
      /\ (D.lt velocity (D.ofZ 0) = false ->
          velocityModifier64 true velocity pageSize = D.div pageSize (D.ofZ 2))
      /\ D.seq (velocityModifier64 false velocity pageSize) (D.ofZ 0) = true
      /\ (forall fling : bool,
             endPage64 fling velocity translate pageSize initialIndex lo hi
             = clamp64 lo hi
                 (D.add initialIndex
                    (D.mul (D.ofZ (-1))
                       (D.round (D.div (D.add translate
                                          (velocityModifier64 fling velocity pageSize))
                                       pageSize))))
             /\ (D.is_nan (endPage64 fling velocity translate pageSize initialIndex lo hi)
                 = false ->
                 D.le lo (endPage64 fling velocity translate pageSize initialIndex lo hi)
                 = true
                 /\ D.le (endPage64 fling velocity translate pageSize initialIndex lo hi) hi
                    = true)))
  /\ (isFling64 false (D.ofZ 0) (D.ofZ (-50)) (D.ofZ (-600)) (D.ofZ 500) = true
      /\ endPage64 true (D.ofZ (-600)) (D.ofZ (-50)) (D.ofZ 300) (D.ofZ 0)
           (D.neg (D.div (D.ofZ 1) (D.ofZ 0))) (D.div (D.ofZ 1) (D.ofZ 0))
         = D.ofZ 1
      /\ endPage64 false (D.ofZ (-600)) (D.ofZ (-50)) (D.ofZ 300) (D.ofZ 0)
           (D.neg (D.div (D.ofZ 1) (D.ofZ 0))) (D.div (D.ofZ 1) (D.ofZ 0))
         = D.ofZ 0)
  /\ (D.round (D.div (D.add (D.mul (D.ofZ 3) (D.div (D.ofZ 4320) (D.ofZ 11)))
                            (velocityModifier64 true (D.ofZ 600)
                               (D.div (D.ofZ 4320) (D.ofZ 11))))
                     (D.div (D.ofZ 4320) (D.ofZ 11)))
      = D.ofZ 3
      /\ endPage64 true (D.ofZ 600) (D.mul (D.ofZ 3) (D.div (D.ofZ 4320) (D.ofZ 11)))
           (D.div (D.ofZ 4320) (D.ofZ 11)) (D.ofZ 0)
           (D.neg (D.div (D.ofZ 1) (D.ofZ 0))) (D.div (D.ofZ 1) (D.ofZ 0))
         = D.ofZ (-3)).
Proof.
  split; [|split].
  - intros cross primary velocity threshold translate pageSize initialIndex lo hi
           Hmain Hord.
    split; [rewrite (@isFling64_value cross primary velocity threshold Hmain); reflexivity|].
    split; [intro Hv; unfold velocityModifier64; rewrite Hv; reflexivity|].
    split; [intro Hv; unfold velocityModifier64; rewrite Hv; reflexivity|].
    split.
    + unfold velocityModifier64.
      destruct (D.lt velocity (D.ofZ 0)); vm_compute; reflexivity.
    + intro fling.
      rewrite (@endPage64_clamped fling velocity translate pageSize initialIndex lo hi Hord).
      split; [reflexivity|]. apply clamp64_in_range. exact Hord.
  - split; [|split]; vm_compute; reflexivity.
  - split; vm_compute; reflexivity.
Qed.

(** The release of the example, between unbounded bounds. *)
Lemma C4_release_fling_witness :
  (isFling64 false (D.ofZ 0) (D.ofZ (-50)) (D.ofZ (-600)) (D.ofZ 500) = true
   <-> D.gt (D.abs (D.ofZ (-600))) (D.ofZ 500) = true)
  /\ velocityModifier64 true (D.ofZ (-600)) (D.ofZ 300)
     = D.mul (D.div (D.ofZ 300) (D.ofZ 2)) (D.ofZ (-1)).
Proof.
  destruct (proj1 C4_release_fling_and_target (D.ofZ 0) (D.ofZ (-50)) (D.ofZ (-600))
              (D.ofZ 500) (D.ofZ (-50)) (D.ofZ 300) (D.ofZ 0)
              (D.neg (D.div (D.ofZ 1) (D.ofZ 0))) (D.div (D.ofZ 1) (D.ofZ 0))
              eq_refl eq_refl)
    as [Hf [Hn _]].
  split; [exact Hf|]. apply Hn. reflexivity.
Defined.

(** C4 as stated fails: a release that travelled 3 units along the axis and
    4 across is not a cross-axis gesture (the cross travel is under the 10
    units), the pager is not locked and the velocity of 1000 exceeds the
    threshold of 500, yet no fling is declared: the release test compares the
    two travels without the threshold. *)
Lemma C4_counterexample_short_diagonal_release :
  JS.to_bool (isGestureLocked flick flick_active) = false
  /\ isSwipingCrossAxis_update flick (panXY (- 3) 4 (- 1000)) = false
  /\ (JS.abs (primaryVelocity flick (panXY (- 3) 4 (- 1000)))
      >? flingVelocity (props flick))%num = true
  /\ isFling flick (panXY (- 3) 4 (- 1000)) flick_active = false.
Proof.
  repeat split; reflexivity.
Qed.

(** ** The imperative [setPage] *)

Lemma setPage_resume_out_of_range (i : Instance) (index : JS.num) (animated : bool)
    (l : JS.num) (p : Pager) :
  (index <? minIndex (props i))%num = true \/ (index >? maxIndex (props i))%num = true ->
  setPage_resume i index animated l p = p.
Proof.
  intro H. unfold setPage_resume.
  destruct H as [H|H]; rewrite H; [reflexivity|].
  rewrite orb_true_r. reflexivity.
Qed.

Lemma with_size_commute (w h : JS.num) (l : option JS.num)
    (q : list (JS.num * bool)) (p : Pager) :
  with_size w h (with_layout l q p) = with_layout l q (with_size w h p).
Proof. reflexivity. Qed.

(** C8.  [setPage] with an index below [minIndex] or above [maxIndex]
    returns without writing: translate, a spring in flight and the committed
    index are as before, whether the call ran at once or waited for the first
    layout.  [setPage(10)] with [maxIndex = 3] leaves the pager unchanged. *)
Theorem C8_setPage_out_of_range_noop :
  (forall (i : Instance) (index : JS.num) (animated : bool) (p : Pager),
      (index <? minIndex (props i))%num = true
      \/ (index >? maxIndex (props i))%num = true ->
      (forall l : JS.num, setPage_resume i index animated l p = p)
      /\ translate (setPage i index animated p) = translate p
      /\ spring (setPage i index animated p) = spring p
      /\ curIndex (setPage i index animated p) = curIndex p
      /\ (forall w h : JS.num,
             onLayout i w h (setPage i index animated p) = onLayout i w h p))
  /\ (forall animated : bool,
         setPage (root (bounded 0 3 0 0)) (JS.ofZ 10) animated
                 (ready (root (bounded 0 3 0 0)) 300 600)
         = ready (root (bounded 0 3 0 0)) 300 600).
Proof.
  split.
  - intros i index animated p H.
    assert (R : forall l q, setPage_resume i index animated l q = q)
      by (intros l q; apply setPage_resume_out_of_range; exact H).
    split; [intro l; apply R|].
    unfold setPage.
    destruct (laidOut p) as [l|] eqn:E.
    + rewrite R. repeat split; reflexivity.
    + repeat split; try reflexivity.
      intros w h. unfold onLayout.
      rewrite with_size_commute.
      cbn [laidOut with_layout with_size pendingSetPage]. rewrite E.
      rewrite fold_left_app. cbn [fold_left fst snd]. rewrite R. reflexivity.
  - intros []; reflexivity.
Qed.

Lemma C8_setPage_out_of_range_witness :
  translate (setPage (root (bounded 0 3 0 0)) (JS.ofZ 10) true
                     (ready (root (bounded 0 3 0 0)) 300 600))
  = JS.ofZ 0
  /\ curIndex (setPage (root (bounded 0 3 0 0)) (JS.ofZ 10) true
                       (ready (root (bounded 0 3 0 0)) 300 600))
     = JS.ofZ 0.
Proof.
  pose proof (proj1 C8_setPage_out_of_range_noop (root (bounded 0 3 0 0)) (JS.ofZ 10)
                true (ready (root (bounded 0 3 0 0)) 300 600)
                (or_intror eq_refl)) as [_ [Ht [_ [Hc _]]]].
  split; [rewrite Ht|rewrite Hc]; reflexivity.
Defined.

(** ** The render window *)

Lemma NoDup_map_inj (A B : Type) (f : A -> B) (l : list A) :
  (forall a b, f a = f b -> a = b) -> NoDup l -> NoDup (map f l).
Proof.
  intros Hinj Hnd. induction Hnd as [|a l Hnin Hnd IH]; cbn; constructor.
  - intro Hin. apply in_map_iff in Hin. destruct Hin as [b [Hb Hin]].
    apply Hinj in Hb. subst. contradiction.
  - exact IH.
Qed.

Lemma pageIndices_integers (i : Instance) (p : Pager) (c : Z) :
  curIndex p = JS.ofZ c ->
  pageIndices i p
  = map JS.ofZ
      (map (fun k : nat => (c - (Z.of_nat k - Z.of_nat (pageBuffer (props i))))%Z)
           (List.seq 0 (pageBuffer (props i) * 2 + 1))).
Proof.
  intro H. unfold pageIndices. rewrite map_map. apply map_ext. intro k.
  rewrite H. unfold ofNat, JS.ofZ. cbn [JS.sub JS.add JS.neg].
  unfold Z.sub. repeat (rewrite inject_Z_plus || rewrite inject_Z_opp).
  reflexivity.
Qed.

(** C9 (as amended).  With an integer committed index [c] and a buffer
    radius [r] such that [|c| + r < 2^53] (the window lies within the safe
    integers) and [2r + 1 < 2^32] (an array of that length exists), the
    mounted indices are exactly the integers of [c - r .. c + r], each once,
    [2r + 1] of them, and the double-precision subtractions of the window
    give these very integers; computing the window again with the same [c]
    and [r] gives the same indices. *)
Theorem C9_render_window :
  forall (i : Instance) (p : Pager) (c : Z),
    curIndex p = JS.ofZ c ->
    (Z.abs c + Z.of_nat (pageBuffer (props i)) < 2 ^ 53)%Z ->
    (2 * Z.of_nat (pageBuffer (props i)) + 1 < 2 ^ 32)%Z ->
    (exists zs : list Z,
        pageIndices i p = map JS.ofZ zs
        /\ map D.toZ (pageIndices64 (D.ofZ c) (pageBuffer (props i))) = map Some zs
        /\ List.length zs = (2 * pageBuffer (props i) + 1)%nat
        /\ NoDup zs
        /\ (forall x : Z,
               In x zs
               <-> (c - Z.of_nat (pageBuffer (props i)) <= x
                    <= c + Z.of_nat (pageBuffer (props i)))%Z))
    /\ (forall (i' : Instance) (p' : Pager),
           pageBuffer (props i') = pageBuffer (props i) ->
           curIndex p' = curIndex p ->
           pageIndices i' p' = pageIndices i p).
Proof.
  intros i p c Hc Hsafe Hlen. split.
  - eexists. split; [apply (pageIndices_integers i p Hc)|].
    set (r := pageBuffer (props i)) in *.
    split; [|split; [|split]].
    + rewrite (@DFacts.pageIndices64_exact c r Hsafe Hlen), map_map. reflexivity.
    + rewrite length_map, length_seq. lia.
    + apply NoDup_map_inj; [|apply seq_NoDup].
      intros a b Hab. lia.
    + intro x. rewrite in_map_iff. split.
      * intros [k [Hk Hin]]. apply in_seq in Hin. lia.
      * intro Hx. exists (Z.to_nat (c + Z.of_nat r - x)). split; [lia|].
        apply in_seq. lia.
  - intros i' p' Hr Hcur. unfold pageIndices. rewrite Hr, Hcur. reflexivity.
Qed.

Lemma C9_render_window_witness :
  pageIndices (root defaultProps) (ready (root defaultProps) 300 600)
  = pageIndices (root defaultProps) (mount (root defaultProps)).
Proof.
  assert (Hsafe : (Z.abs 0 + Z.of_nat (pageBuffer (props (root defaultProps))) < 2 ^ 53)%Z)
    by reflexivity.
  assert (Hlen : (2 * Z.of_nat (pageBuffer (props (root defaultProps))) + 1 < 2 ^ 32)%Z)
    by reflexivity.
  apply (proj2 (@C9_render_window (root defaultProps) (mount (root defaultProps))
                  0%Z eq_refl Hsafe Hlen)
               (root defaultProps) (ready (root defaultProps) 300 600));
    reflexivity.
Defined.

(** C9 as stated fails: at the committed index [2^53 + 2] with radius 1 the
    double-precision window holds [c + 2], [c] and [c - 2]; the neighbours
    [c + 1] and [c - 1] are not mounted.  At [2^53 - 2], within the bound,
    the window is [c + 1], [c], [c - 1]. *)
Lemma C9_counterexample_window_beyond_safe_integers :
  D.toZ (D.ofZ 9007199254740994) = Some 9007199254740994%Z
  /\ map D.toZ (pageIndices64 (D.ofZ 9007199254740994) 1)
     = [Some 9007199254740996%Z; Some 9007199254740994%Z; Some 9007199254740992%Z]
  /\ ~ In (Some 9007199254740995%Z)
          (map D.toZ (pageIndices64 (D.ofZ 9007199254740994) 1))
  /\ ~ In (Some 9007199254740993%Z)
          (map D.toZ (pageIndices64 (D.ofZ 9007199254740994) 1))
  /\ map D.toZ (pageIndices64 (D.ofZ 9007199254740990) 1)
     = [Some 9007199254740991%Z; Some 9007199254740990%Z; Some 9007199254740989%Z].
Proof.
  assert (E : map D.toZ (pageIndices64 (D.ofZ 9007199254740994) 1)
              = [Some 9007199254740996%Z; Some 9007199254740994%Z;
                 Some 9007199254740992%Z])
    by (vm_compute; reflexivity).
  split; [vm_compute; reflexivity|]. split; [exact E|].
  rewrite E. split; [|split].
  - intros [H|[H|[H|[]]]]; discriminate.
  - intros [H|[H|[H|[]]]]; discriminate.
  - vm_compute; reflexivity.
Qed.

(** ** Focus value and continuous page position before layout *)

Lemma reaction_pageAnim (p : Pager) : pageAnim (reaction p) = pageAnim p.
Proof. unfold reaction. destruct (changed _ _); reflexivity. Qed.








(** ** Commit/notify loop *)

Lemma seq_ofZ (a b : Z) : (JS.ofZ a === JS.ofZ b)%num = Z.eqb a b.
Proof.
  apply eq_true_iff_eq. cbn. rewrite Qeq_bool_iff, Z.eqb_eq.
  apply inject_Z_injective.
Qed.

Lemma reaction_observed (s : JS.num) (p : Pager) :
  reactionPrev (reaction (with_pageAnim s p)) = Some (JS.round s)
  /\ pageChanges (reaction (with_pageAnim s p))
     = pageChanges p
       ++ (if changed (JS.round s) (reactionPrev p) then [JS.round s] else []).
Proof.
  unfold reaction. cbn [pageAnim with_pageAnim reactionPrev].
  destruct (changed (JS.round s) (reactionPrev p)); cbn.
  - split; reflexivity.
  - split; [reflexivity|]. rewrite app_nil_r. reflexivity.
Qed.

Lemma observe_pageChanges (samples : list JS.num) (p : Pager) :
  pageChanges (observe samples p)
  = pageChanges p ++ notified (reactionPrev p) samples.
Proof.
  revert p. induction samples as [|s rest IH]; intro p; cbn.
  - rewrite app_nil_r. reflexivity.
  - unfold observe in *. rewrite IH.
    destruct (reaction_observed s p) as [Hprev Hlog]. rewrite Hprev, Hlog.
    destruct (changed (JS.round s) (reactionPrev p)).
    + rewrite <- app_assoc. reflexivity.
    + rewrite app_nil_r. reflexivity.
Qed.

Lemma notified_finite (qs : list Q) (c : Z) :
  notified (Some (JS.ofZ c)) (map JS.Fin qs)
  = map JS.ofZ (commits c (map JS.round_half_up qs)).
Proof.
  revert c. induction qs as [|q qs IH]; intro c; [reflexivity|].
  cbn [map notified commits JS.round changed]. rewrite seq_ofZ.
  destruct (Z.eqb (JS.round_half_up q) c); cbn [negb map]; rewrite IH; reflexivity.
Qed.

Lemma chain_impl (A : Type) (R S : A -> A -> Prop) (x : A) (l : list A) :
  (forall a b, R a b -> S a b) -> chain R x l -> chain S x l.
Proof.
  intro H. revert x. induction l as [|y l IH]; intros x Hc; [exact I|].
  destruct Hc as [Hxy Hc]. split; [apply H; exact Hxy|apply IH; exact Hc].
Qed.

Lemma chain_and (A : Type) (R S : A -> A -> Prop) (x : A) (l : list A) :
  chain R x l -> chain S x l -> chain (fun a b => R a b /\ S a b) x l.
Proof.
  revert x. induction l as [|y l IH]; intros x Hr Hs; [exact I|].
  destruct Hr as [Hr1 Hr2], Hs as [Hs1 Hs2]. split; [split; assumption|].
  apply IH; assumption.
Qed.

Lemma chain_map (A B : Type) (f : A -> B) (R : A -> A -> Prop) (S : B -> B -> Prop)
    (x : A) (l : list A) :
  (forall a b, R a b -> S (f a) (f b)) -> chain R x l -> chain S (f x) (map f l).
Proof.
  intro H. revert x. induction l as [|y l IH]; intros x Hc; [exact I|].
  destruct Hc as [Hxy Hc]. split; [apply H; exact Hxy|apply IH; exact Hc].
Qed.

Lemma chain_reaches (up : bool) (zs : list Z) (c : Z) :
  chain (towardsZ up) c zs -> Forall (towardsZ up c) zs.
Proof.
  revert c. induction zs as [|z zs IH]; intros c Hc; constructor.
  - apply Hc.
  - destruct Hc as [Hcz Hc]. apply IH in Hc.
    apply (Forall_impl _ (P := towardsZ up z)); [|exact Hc].
    intros x Hx. destruct up; cbn in *; lia.
Qed.

Lemma commits_sorted (up : bool) (zs : list Z) (c : Z) :
  chain (towardsZ up) c zs ->
  StronglySorted (beyondZ up) (commits c zs) /\ Forall (beyondZ up c) (commits c zs).
Proof.
  revert c. induction zs as [|z zs IH]; intros c Hc; cbn.
  - split; constructor.
  - destruct Hc as [Hcz Hc]. destruct (Z.eqb_spec z c) as [->|Hne].
    + apply IH. exact Hc.
    + destruct (IH z Hc) as [Hs Hf]. split.
      * constructor; assumption.
      * constructor.
        -- destruct up; cbn in *; lia.
        -- apply (Forall_impl _ (P := beyondZ up z)); [|exact Hf].
           intros x Hx. destruct up; cbn in *; lia.
Qed.

Lemma sorted_NoDup (up : bool) (l : list Z) :
  StronglySorted (beyondZ up) l -> NoDup l.
Proof.
  induction 1 as [|a l Hs IH Hf]; constructor; [|exact IH].
  intro Hin. rewrite Forall_forall in Hf. specialize (Hf a Hin).
  destruct up; cbn in Hf; lia.
Qed.

Lemma commits_In (up : bool) (zs : list Z) (c : Z) :
  chain (towardsZ up) c zs ->
  forall x : Z, In x (commits c zs) <-> In x zs /\ x <> c.
Proof.
  revert c. induction zs as [|z zs IH]; intros c Hc x; cbn.
  - tauto.
  - destruct Hc as [Hcz Hc]. pose proof (chain_reaches up zs z Hc) as Hr.
    rewrite Forall_forall in Hr.
    destruct (Z.eqb_spec z c) as [->|Hne].
    + rewrite (IH c Hc). intuition congruence.
    + cbn. rewrite (IH z Hc). split.
      * intros [->|[Hin Hx]]; [tauto|]. split; [tauto|].
        specialize (Hr x Hin). destruct up; cbn in *; lia.
      * intros [[->|Hin] Hx]; [tauto|].
        destruct (Z.eq_dec x z) as [->|Hxz]; [tauto|]. right. tauto.
Qed.

Lemma steps_succ (up : bool) (c : Z) (n : nat) :
  steps up c (S n)
  = (if up then c + 1 else c - 1)%Z :: steps up (if up then c + 1 else c - 1)%Z n.
Proof.
  unfold steps. cbn [List.seq map]. f_equal.
  - destruct up; lia.
  - rewrite <- seq_shift, map_map. apply map_ext. intro k. destruct up; lia.
Qed.

Lemma last_cons_default (A : Type) (z d : A) (l : list A) :
  last (z :: l) d = last l z.
Proof.
  revert z d. induction l as [|y l IH]; intros z d; [reflexivity|].
  change (last (z :: y :: l) d) with (last (y :: l) d).
  rewrite (IH y d), (IH y z). reflexivity.
Qed.

Lemma commits_steps (up : bool) (zs : list Z) (c : Z) :
  chain (fun a b => towardsZ up a b /\ (Z.abs (b - a) <= 1)%Z) c zs ->
  commits c zs = steps up c (Z.abs_nat (last zs c - c)).
Proof.
  revert c. induction zs as [|z zs IH]; intros c Hc.
  - cbn. rewrite Z.sub_diag. reflexivity.
  - destruct Hc as [[Hcz Hstep] Hc]. rewrite last_cons_default. cbn [commits].
    assert (Hlast : towardsZ up z (last zs z)).
    { assert (Hm : chain (towardsZ up) z zs)
        by (apply (@chain_impl _ _ (towardsZ up) _ _ (fun a b H => proj1 H) Hc)).
      clear -Hm. revert z Hm. induction zs as [|y zs IH]; intros z Hm.
      - destruct up; cbn; lia.
      - destruct Hm as [Hzy Hm]. rewrite last_cons_default.
        specialize (IH y Hm). destruct up; cbn in *; lia. }
    destruct (Z.eqb_spec z c) as [->|Hne].
    + apply IH. exact Hc.
    + rewrite (IH z Hc).
      assert (Hz : z = (if up then c + 1 else c - 1)%Z)
        by (destruct up; cbn in *; lia).
      replace (Z.abs_nat (last zs z - c)) with (S (Z.abs_nat (last zs z - z)))
        by (destruct up; cbn in *; lia).
      rewrite steps_succ, <- Hz. reflexivity.
Qed.

Lemma round_mono (up : bool) (a b : Q) :
  towards up a b -> towardsZ up (JS.round_half_up a) (JS.round_half_up b).
Proof.
  unfold JS.round_half_up, towards, towardsZ.
  destruct up; intro H; apply Qfloor_resp_le; lra.
Qed.

Lemma round_within_one (a b : Q) :
  b <= a + 1 -> (JS.round_half_up b <= JS.round_half_up a + 1)%Z.
Proof.
  intro H. unfold JS.round_half_up.
  pose proof (Qfloor_le (b + (1 # 2))) as Hb.
  pose proof (Qlt_floor (a + (1 # 2))) as Ha.
  assert (Hlt : inject_Z (Qfloor (b + (1 # 2))) < inject_Z (Qfloor (a + (1 # 2)) + 1 + 1)).
  { rewrite (inject_Z_plus (Qfloor (a + (1 # 2)) + 1) 1).
    change (inject_Z 1) with 1. lra. }
  rewrite <- Zlt_Qlt in Hlt. lia.
Qed.

Lemma round_smooth (a b : Q) :
  smooth a b -> (Z.abs (JS.round_half_up b - JS.round_half_up a) <= 1)%Z.
Proof.
  unfold smooth. intro H. apply Qabs_Qle_condition in H. destruct H as [Hl Hu].
  assert (H1 : b <= a + 1) by lra.
  assert (H2 : a <= b + 1) by lra.
  apply round_within_one in H1. apply round_within_one in H2. lia.
Qed.

Lemma last_map (A B : Type) (f : A -> B) (l : list A) (d : A) :
  last (map f l) (f d) = f (last l d).
Proof.
  induction l as [|x l IH]; [reflexivity|].
  destruct l as [|y l]; [reflexivity|]. exact IH.
Qed.

(** C7.  A sweep of the page position that never turns back, starting where
    the reaction last looked: the callback receives every rounded value the
    sweep reaches other than the one committed at the start, each exactly
    once, in the order of the sweep; when consecutive samples are at most one
    page apart these are the consecutive integers up to the last rounded
    position, none skipped; and a sample that rounds to the committed value
    calls nothing.  Driving translate in quarter pages from page 0 to page 5
    after mount has notified 0 (on mount) and then 1, 2, 3, 4, 5. *)
Theorem C7_monotonic_sweep_notifications :
  (forall (up : bool) (p : Pager) (q0 : Q) (qs : list Q),
      reactionPrev p = Some (JS.round (JS.Fin q0)) ->
      chain (towards up) q0 qs ->
      exists F : list Z,
        pageChanges (observe (map JS.Fin qs) p) = pageChanges p ++ map JS.ofZ F
        /\ StronglySorted (beyondZ up) F
        /\ NoDup F
        /\ (forall z : Z,
               In z F
               <-> In z (map JS.round_half_up qs) /\ z <> JS.round_half_up q0)
        /\ (chain smooth q0 qs ->
            F = steps up (JS.round_half_up q0)
                  (Z.abs_nat (JS.round_half_up (last qs q0) - JS.round_half_up q0)))
        /\ (forall s : JS.num,
               JS.round s = JS.round (JS.Fin q0) ->
               pageChanges (reaction (with_pageAnim s p)) = pageChanges p))
  /\ pageChanges (drive flick sweep_translates (ready flick 300 600))
     = map JS.ofZ [0; 1; 2; 3; 4; 5]%Z.
Proof.
  split; [|vm_compute; reflexivity].
  intros up p q0 qs Hprev Hsweep.
  exists (commits (JS.round_half_up q0) (map JS.round_half_up qs)).
  assert (Hz : chain (towardsZ up) (JS.round_half_up q0) (map JS.round_half_up qs))
    by (apply (chain_map JS.round_half_up (towards up) (towardsZ up) q0 qs
                 (round_mono up) Hsweep)).
  destruct (commits_sorted up _ _ Hz) as [Hsorted _].
  split; [|split; [|split; [|split; [|split]]]].
  - rewrite observe_pageChanges, Hprev. cbn [JS.round].
    rewrite notified_finite. reflexivity.
  - exact Hsorted.
  - apply (sorted_NoDup Hsorted).
  - apply (commits_In up _ _ Hz).
  - intro Hsmooth. rewrite <- (last_map JS.round_half_up qs q0).
    apply commits_steps.
    apply chain_and; [exact Hz|].
    apply (chain_map JS.round_half_up smooth
             (fun a b => (Z.abs (b - a) <= 1)%Z) q0 qs round_smooth Hsmooth).
  - intros s Hs. destruct (reaction_observed s p) as [_ Hlog].
    rewrite Hlog, Hprev, Hs. cbn [JS.round changed]. rewrite seq_ofZ, Z.eqb_refl.
    cbn [negb]. rewrite app_nil_r. reflexivity.
Qed.

(** Four half-page steps upwards from page 0, seen by a pager that has
    committed 0. *)
Lemma C7_monotonic_sweep_witness :
  exists F : list Z,
    pageChanges (observe (map JS.Fin [1 # 2; 1; 3 # 2; 2]) (ready flick 300 600))
    = pageChanges (ready flick 300 600) ++ map JS.ofZ F
    /\ NoDup F
    /\ F = steps true 0 2.
Proof.
  assert (Hup : chain (towards true) 0 [1 # 2; 1; 3 # 2; 2])
    by (repeat split; discriminate).
  assert (Hsm : chain smooth 0 [1 # 2; 1; 3 # 2; 2])
    by (repeat split; discriminate).
  destruct (proj1 C7_monotonic_sweep_notifications true (ready flick 300 600)
              0 [1 # 2; 1; 3 # 2; 2] eq_refl Hup)
    as [F [Hlog [_ [Hnd [_ [Hsteps _]]]]]].
  exists F. split; [exact Hlog|]. split; [exact Hnd|]. exact (Hsteps Hsm).
Defined.

(* ================================================================= *)
(** * Further properties of the code *)

(** ** Pager ids and arbitration *)

Lemma ofNat_inj (a b : nat) : ofNat a = ofNat b -> a = b.
Proof.
  unfold ofNat, JS.ofZ, inject_Z. intro H. injection H as H.
  apply Nat2Z.inj. exact H.
Qed.

(** X1.  The id template reads back: the first field of a pager id is its
    orientation and [Number] of the second field is its nesting depth,
    whatever the random part; so two pagers with the same id have the same
    orientation and the same depth. *)
Theorem X1_pagerId_reads_back :
  forall (v : bool) (d : nat) (r : string),
    field 0 (Ident.pagerId v d r) = Some (Ident.orientation_of v)
    /\ Ident.Number (field 1 (Ident.pagerId v d r)) = ofNat d
    /\ (forall (v' : bool) (d' : nat) (r' : string),
           Ident.pagerId v d r = Ident.pagerId v' d' r' -> v = v' /\ d = d').
Proof.
  intros v d r. split; [apply field0_pagerId|]. split.
  - rewrite field1_pagerId. apply Number_show_nat.
  - intros v' d' r' H. split.
    + pose proof (field0_pagerId v d r) as H0. rewrite H, field0_pagerId in H0.
      injection H0 as H0. destruct v, v'; try reflexivity; discriminate.
    + pose proof (f_equal (fun id => Ident.Number (field 1 id)) H) as H1.
      cbv beta in H1. rewrite !field1_pagerId, !Number_show_nat in H1.
      apply ofNat_inj. exact H1.
Qed.

Lemma deepest_iff (i : Instance) (active : list string) :
  isDeepestInOrientation i active = true
  <-> (forall v, In v active ->
                 str_is (field 0 v) (orientation i) = true ->
                 (Ident.Number (field 1 v) <=? ofNat (nestingDepth i))%num = true).
Proof.
  unfold isDeepestInOrientation. rewrite forallb_forall. split.
  - intros H v Hin Ho. apply H. apply filter_In. split; assumption.
  - intros H v Hin. apply filter_In in Hin. destruct Hin as [Hin Ho].
    apply H; assumption.
Qed.

(** X3.  The lock does not depend on the order of the active list, that is
    on the order in which the pagers acquired their gestures. *)
Theorem X3_lock_ignores_acquisition_order :
  forall (i : Instance) (active active' : list string),
    Permutation active active' ->
    isGestureLocked i active = isGestureLocked i active'.
Proof.
  intros i active active' Hp. unfold isGestureLocked.
  rewrite (Permutation_length Hp). f_equal. f_equal. f_equal.
  apply eq_true_iff_eq. rewrite !deepest_iff. split; intros H v Hin.
  - apply H. apply (Permutation_in _ (Permutation_sym Hp) Hin).
  - apply H. apply (Permutation_in _ Hp Hin).
Qed.

Lemma X3_lock_ignores_acquisition_order_witness :
  isGestureLocked (instance false 0 "0.1")
    [Ident.pagerId false 0 "0.1"; Ident.pagerId false 1 "0.2"]
  = isGestureLocked (instance false 0 "0.1")
      [Ident.pagerId false 1 "0.2"; Ident.pagerId false 0 "0.1"].
Proof.
  apply (X3_lock_ignores_acquisition_order (instance false 0 "0.1")).
  apply perm_swap.
Defined.

Lemma deepest_exists (ids : list (bool * nat * string)) (o : bool) :
  (exists x, In x ids /\ id_vertical x = o) ->
  exists y, In y ids
            /\ id_vertical y = o
            /\ (forall z, In z ids -> id_vertical z = o ->
                          (id_depth z <= id_depth y)%nat).
Proof.
  induction ids as [|a ids IH]; intros [x [Hin Hx]]; [contradiction|].
  destruct (existsb (fun z => Bool.eqb (id_vertical z) o) ids) eqn:E.
  - apply existsb_exists in E. destruct E as [x' [Hin' Hx']].
    apply eqb_prop in Hx'.
    destruct (IH (ex_intro _ x' (conj Hin' Hx'))) as [y [Hy [Hvy Hmax]]].
    destruct (Bool.bool_dec (id_vertical a) o) as [Ha|Ha].
    + destruct (Nat.le_gt_cases (id_depth a) (id_depth y)) as [Hle|Hgt].
      * exists y. split; [right; exact Hy|]. split; [exact Hvy|].
        intros z [<-|Hz] Hvz; [exact Hle|apply Hmax; assumption].
      * exists a. split; [left; reflexivity|]. split; [exact Ha|].
        intros z [<-|Hz] Hvz; [apply Nat.le_refl|].
        specialize (Hmax z Hz Hvz). lia.
    + exists y. split; [right; exact Hy|]. split; [exact Hvy|].
      intros z [<-|Hz] Hvz; [contradiction|apply Hmax; assumption].
  - assert (Hnone : forall z, In z ids -> id_vertical z <> o).
    { intros z Hz Hvz.
      assert (Ht : existsb (fun z => Bool.eqb (id_vertical z) o) ids = true).
      { apply existsb_exists. exists z. split; [exact Hz|].
        rewrite Hvz. apply eqb_reflx. }
      congruence. }
    destruct Hin as [<-|Hin]; [|exfalso; apply (Hnone x Hin Hx)].
    exists a. split; [left; reflexivity|]. split; [exact Hx|].
    intros z [<-|Hz] Hvz; [apply Nat.le_refl|].
    exfalso. apply (Hnone z Hz Hvz).
Qed.

Lemma not_locked_when_deepest (i : Instance) (ids : list (bool * nat * string)) :
  (forall z, In z ids -> id_vertical z = vertical (props i) ->
             (id_depth z <= nestingDepth i)%nat) ->
  JS.to_bool (isGestureLocked i (map id_of ids)) = false.
Proof.
  intro H. rewrite locked_bool, deepest_on_ids.
  assert (F : forallb (fun x => implb (Bool.eqb (id_vertical x) (vertical (props i)))
                                      (Nat.leb (id_depth x) (nestingDepth i))) ids = true).
  { apply forallb_forall. intros z Hz.
    destruct (Bool.eqb (id_vertical z) (vertical (props i))) eqn:E; [|reflexivity].
    apply eqb_prop in E. cbn. apply Nat.leb_le. apply H; assumption. }
  rewrite F. apply andb_false_r.
Qed.

Lemma locked_by_deeper (i : Instance) (ids : list (bool * nat * string))
    (x : bool * nat * string) :
  In x ids ->
  id_vertical x = vertical (props i) ->
  (nestingDepth i < id_depth x)%nat ->
  JS.to_bool (isGestureLocked i (map id_of ids)) = true.
Proof.
  intros Hin Hv Hd. rewrite locked_bool, deepest_on_ids.
  apply andb_true_iff. split.
  - destruct ids; [contradiction|reflexivity].
  - apply negb_true_iff.
    destruct (forallb _ ids) eqn:F; [|reflexivity].
    rewrite forallb_forall in F. specialize (F x Hin).
    rewrite Hv, eqb_reflx in F. cbn in F. apply Nat.leb_le in F. lia.
Qed.

(** X2.  Arbitration never locks everybody: for every active pager there is
    an active pager of the same orientation (a deepest one) that is not
    locked. *)
Theorem X2_some_active_pager_unlocked :
  forall (ids : list (bool * nat * string)) (x : bool * nat * string),
    In x ids ->
    exists y,
      In y ids
      /\ id_vertical y = id_vertical x
      /\ (forall i : Instance,
             vertical (props i) = id_vertical y ->
             nestingDepth i = id_depth y ->
             JS.to_bool (isGestureLocked i (map id_of ids)) = false).
Proof.
  intros ids x Hin.
  destruct (deepest_exists ids (ex_intro _ x (conj Hin eq_refl))) as [y [Hy [Hvy Hmax]]].
  exists y. split; [exact Hy|]. split; [exact Hvy|].
  intros i Hv Hd. apply not_locked_when_deepest.
  intros z Hz Hvz. rewrite Hd. apply Hmax; [exact Hz|]. congruence.
Qed.

Lemma X2_some_active_pager_unlocked_witness :
  exists y,
    In y [(false, 0%nat, "0.1"%string); (false, 1%nat, "0.2"%string)]
    /\ id_vertical y = false
    /\ (forall i : Instance,
           vertical (props i) = id_vertical y ->
           nestingDepth i = id_depth y ->
           JS.to_bool (isGestureLocked i
                         (map id_of [(false, 0%nat, "0.1"%string);
                                     (false, 1%nat, "0.2"%string)])) = false).
Proof.
  apply (X2_some_active_pager_unlocked
           [(false, 0%nat, "0.1"%string); (false, 1%nat, "0.2"%string)]
           (false, 0%nat, "0.1"%string)).
  left. reflexivity.
Defined.

(** X7.  While a deeper pager of the same orientation is active, this
    pager's touch-move sample fails, its update leaves the snapshot as it is
    and its release is never a fling. *)
Theorem X7_deeper_active_pager_silences :
  forall (i : Instance) (ids : list (bool * nat * string))
         (x : bool * nat * string) (t : Touch) (evt : PanEvent) (p : Pager),
    In x ids ->
    id_vertical x = vertical (props i) ->
    (nestingDepth i < id_depth x)%nat ->
    snd (onTouchesMove i t p (map id_of ids)) = true
    /\ onUpdate i evt p (map id_of ids) = p
    /\ isFling i evt (map id_of ids) = false.
Proof.
  intros i ids x t evt p Hin Hv Hd.
  pose proof (locked_by_deeper i ids x Hin Hv Hd) as L.
  split; [|split].
  - unfold onTouchesMove, shouldFailSelf. rewrite L, orb_true_r. reflexivity.
  - unfold onUpdate. rewrite L. reflexivity.
  - unfold isFling. rewrite L. reflexivity.
Qed.

Lemma X7_deeper_active_pager_silences_witness :
  snd (onTouchesMove (instance false 0 "0.1") (touchAt 90 40)
         (ready (instance false 0 "0.1") 300 600)
         (map id_of [(false, 0%nat, "0.1"%string); (false, 1%nat, "0.2"%string)]))
  = true.
Proof.
  apply (X7_deeper_active_pager_silences (instance false 0 "0.1")
           [(false, 0%nat, "0.1"%string); (false, 1%nat, "0.2"%string)]
           (false, 1%nat, "0.2"%string) (touchAt 90 40) (panAt 90 40 (- 10) 0)
           (ready (instance false 0 "0.1") 300 600)).
  - right. left. reflexivity.
  - reflexivity.
  - cbn. lia.
Defined.

(** ** A whole gesture and the active list *)

Lemma remove_push_same (id : string) (active : list string) :
  remove id (push id active) = remove id active.
Proof.
  unfold remove, push. rewrite filter_app. cbn [filter].
  rewrite String.eqb_refl. cbn [negb]. apply app_nil_r.
Qed.

Lemma remove_idem (id : string) (active : list string) :
  remove id (remove id active) = remove id active.
Proof.
  unfold remove. induction active as [|x l IH]; [reflexivity|].
  cbn [filter]. destruct (negb (String.eqb x id)) eqn:E; cbn [filter].
  - rewrite E, IH. reflexivity.
  - exact IH.
Qed.

Lemma onTouchesMove_others (i : Instance) (t : Touch) (p : Pager)
    (active : list string) :
  remove (pagerId i) (fst (onTouchesMove i t p active)) = remove (pagerId i) active.
Proof.
  unfold onTouchesMove.
  destruct (shouldFailSelf i t p active); cbn [fst].
  - destruct (str_truthy (debugTag (props i))); [apply remove_idem|reflexivity].
  - destruct (negb (includes (pagerId i) active)); [apply remove_push_same|reflexivity].
Qed.

Lemma dispatch_others (i : Instance) (ev : GestureEvent) (st : Pager * list string) :
  remove (pagerId i) (snd (dispatch i ev st)) = remove (pagerId i) (snd st).
Proof.
  destruct ev as [evt|t|evt|evt|]; unfold dispatch.
  - rewrite onBegin_active. reflexivity.
  - apply onTouchesMove_others.
  - reflexivity.
  - reflexivity.
  - apply remove_idem.
Qed.

Lemma run_others (i : Instance) (evs : list GestureEvent) (st : Pager * list string) :
  remove (pagerId i) (snd (run i evs st)) = remove (pagerId i) (snd st).
Proof.
  revert st. induction evs as [|ev evs IH]; intro st; [reflexivity|].
  unfold run in *. cbn [fold_left]. rewrite IH. apply dispatch_others.
Qed.

(** X4.  Whatever callbacks a pager's gesture makes, the other pagers stay in
    the active list as they were, in their order; and once the gesture is
    finalized the active list is the one from before the gesture without
    this pager. *)
Theorem X4_gesture_leaves_other_pagers_alone :
  forall (i : Instance) (evs : list GestureEvent) (p : Pager) (active : list string),
    remove (pagerId i) (snd (run i evs (p, active))) = remove (pagerId i) active
    /\ snd (run i (evs ++ [EvFinalize]) (p, active)) = remove (pagerId i) active.
Proof.
  intros i evs p active. split.
  - apply (run_others i evs (p, active)).
  - unfold run. rewrite fold_left_app. cbn [fold_left dispatch snd].
    unfold onFinalize. apply (run_others i evs (p, active)).
Qed.

Lemma NoDup_push (id : string) (active : list string) :
  NoDup active -> ~ In id active -> NoDup (push id active).
Proof.
  intros Hnd Hnin. unfold push.
  apply (Permutation_NoDup (Permutation_cons_append active id)).
  constructor; assumption.
Qed.

Lemma NoDup_remove (id : string) (active : list string) :
  NoDup active -> NoDup (remove id active).
Proof. intro H. unfold remove. apply NoDup_filter. exact H. Qed.

Lemma dispatch_NoDup (i : Instance) (ev : GestureEvent) (st : Pager * list string) :
  NoDup (snd st) -> NoDup (snd (dispatch i ev st)).
Proof.
  intro H. destruct ev as [evt|t|evt|evt|]; unfold dispatch.
  2: { cbn [snd]. unfold onTouchesMove.
       destruct (shouldFailSelf i t (fst st) (snd st)); cbn [fst].
       - destruct (str_truthy (debugTag (props i))); [apply NoDup_remove|]; exact H.
       - destruct (includes (pagerId i) (snd st)) eqn:E; cbn [negb]; [exact H|].
         apply NoDup_push; [exact H|].
         intro Hin. apply includes_In in Hin. congruence. }
  - rewrite onBegin_active. exact H.
  - exact H.
  - exact H.
  - apply NoDup_remove. exact H.
Qed.

(** X5.  A pager never comes to stand twice in the active list: if the list
    has no duplicates before a gesture, it has none after any series of the
    gesture's callbacks. *)
Theorem X5_gesture_keeps_active_list_duplicate_free :
  forall (i : Instance) (evs : list GestureEvent) (p : Pager) (active : list string),
    NoDup active ->
    NoDup (snd (run i evs (p, active))).
Proof.
  intros i evs. unfold run.
  induction evs as [|ev evs IH]; intros p active H; [exact H|].
  cbn [fold_left].
  destruct (dispatch i ev (p, active)) as [p' active'] eqn:E.
  apply IH. change active' with (snd (p', active')). rewrite <- E.
  apply dispatch_NoDup. exact H.
Qed.

(** Two accepted samples in a row on the last page of [lastPage]. *)
Lemma X5_gesture_keeps_active_list_duplicate_free_witness :
  NoDup (snd (run lastPage
                [EvBegin (panAt 100 40 0 0); EvTouchesMove (touchAt 105 40);
                 EvTouchesMove (touchAt 110 40)]
                (ready lastPage 300 600, []))).
Proof.
  apply (@X5_gesture_keeps_active_list_duplicate_free lastPage
           [EvBegin (panAt 100 40 0 0); EvTouchesMove (touchAt 105 40);
            EvTouchesMove (touchAt 110 40)]
           (ready lastPage 300 600) []).
  constructor.
Defined.

(** ** Updates during a drag *)

(** X8.  A drag is absolute, not incremental: an update that is not
    suppressed overwrites whatever an earlier update of the same gesture
    wrote, so only the last sample counts. *)
Theorem X8_last_update_wins :
  forall (i : Instance) (e1 e2 : PanEvent) (p : Pager) (a1 a2 : list string),
    JS.to_bool (isGestureLocked i a2) = false ->
    isSwipingCrossAxis_update i e2 = false ->
    onUpdate i e2 (onUpdate i e1 p a1) a2 = onUpdate i e2 p a2.
Proof.
  intros i e1 e2 p a1 a2 Hfree Hmain.
  rewrite !(onUpdate_writes i e2 _ a2 Hfree Hmain).
  unfold onUpdate.
  destruct (JS.to_bool (isGestureLocked i a1) || isSwipingCrossAxis_update i e1);
    reflexivity.
Qed.

Lemma X8_last_update_wins_witness :
  onUpdate bouncy (panAt 100 40 (- 20) 0)
    (onUpdate bouncy (panAt 100 40 (- 300) 0) (fst bouncy_began) bouncy_active)
    bouncy_active
  = onUpdate bouncy (panAt 100 40 (- 20) 0) (fst bouncy_began) bouncy_active.
Proof.
  apply (@X8_last_update_wins bouncy (panAt 100 40 (- 300) 0) (panAt 100 40 (- 20) 0)
           (fst bouncy_began) bouncy_active bouncy_active);
    reflexivity.
Defined.

(** X17.  [onUpdate] does not guard a page size of 0: before layout, on a
    pager with finite bounds, an update that is not suppressed writes NaN into
    the position store. *)
Theorem X17_update_without_page_size_writes_NaN :
  forall (i : Instance) (evt : PanEvent) (p : Pager) (active : list string)
         (s e z i0 b m M : Q),
    startTranslate p = JS.Fin s ->
    primaryTranslation i evt = JS.Fin e ->
    pageSize i p = JS.Fin z ->
    z == 0 ->
    initialIndex (props i) = JS.Fin i0 ->
    bouncePct (props i) = JS.Fin b ->
    minIndex (props i) = JS.Fin m ->
    maxIndex (props i) = JS.Fin M ->
    JS.to_bool (isGestureLocked i active) = false ->
    isSwipingCrossAxis_update i evt = false ->
    translate (onUpdate i evt p active) = JS.NaN.
Proof.
  intros i evt p active s e z i0 b m M Hs He Hsz Hz Hi Hb Hm HM Hfree Hmain.
  rewrite (onUpdate_writes i evt p active Hfree Hmain).
  cbn [translate write_translate].
  unfold updateTranslate. rewrite Hs, He, Hsz, Hi, Hb, Hm, HM.
  assert (Hsg : JS.sgn z = Eq) by (apply Qeq_alt; exact Hz).
  cbn [JS.add JS.neg]. unfold JS.div. rewrite Hsg.
  destruct (JS.sgn (- (s + e))); cbn; rewrite ?Hsg; reflexivity.
Qed.

(** A drag of 10 units on [lastPage] before it was laid out. *)
Lemma X17_update_without_page_size_witness :
  translate (onUpdate lastPage (panAt 100 40 10 0) (mount lastPage) []) = JS.NaN.
Proof.
  apply (@X17_update_without_page_size_writes_NaN lastPage (panAt 100 40 10 0)
           (mount lastPage) [] 0 10 0 2 0 0 2); reflexivity.
Defined.

(** ** The reaction on a position that does not move *)

Lemma seq_refl (a : JS.num) : a <> JS.NaN -> (a === a)%num = true.
Proof.
  destruct a; cbn; intro H; try reflexivity; [congruence|].
  apply Qeq_bool_iff. reflexivity.
Qed.

Lemma round_NaN (a : JS.num) : JS.round a = JS.NaN <-> a = JS.NaN.
Proof. destruct a; cbn; split; intro H; try reflexivity; discriminate. Qed.

(** X18.  Run again on an unchanged page position the reaction notifies
    nothing and changes nothing, unless the position is NaN: then every run
    calls the callback with NaN. *)
Theorem X18_reaction_settles_unless_NaN :
  forall p : Pager,
    (pageAnim p <> JS.NaN -> reaction (reaction p) = reaction p)
    /\ (pageAnim p = JS.NaN ->
        pageChanges (reaction p) = pageChanges p ++ [JS.NaN]
        /\ pageAnim (reaction p) = JS.NaN).
Proof.
  intro p. split.
  - intro H.
    assert (Hr : JS.round (pageAnim p) <> JS.NaN)
      by (intro E; apply (H (proj1 (round_NaN _) E))).
    unfold reaction at 1. rewrite reaction_pageAnim.
    assert (Hprev : reactionPrev (reaction p) = Some (JS.round (pageAnim p))).
    { unfold reaction. destruct (changed _ _); reflexivity. }
    rewrite Hprev. cbn [changed]. rewrite (seq_refl Hr). cbn [negb].
    unfold reaction. destruct (changed _ _); reflexivity.
  - intro H. split; [|rewrite reaction_pageAnim; exact H].
    unfold reaction. rewrite H. cbn [JS.round].
    assert (Hc : changed JS.NaN (reactionPrev p) = true)
      by (destruct (reactionPrev p); reflexivity).
    rewrite Hc. reflexivity.
Qed.

(** ** The imperative API and the committed index *)










Lemma setPage_resume_laidOut (i : Instance) (index : JS.num) (animated : bool)
    (l : JS.num) (p : Pager) :
  laidOut (setPage_resume i index animated l p) = laidOut p.
Proof.
  unfold setPage_resume.
  destruct ((index <? minIndex (props i))%num || (index >? maxIndex (props i))%num);
    [reflexivity|].
  destruct animated; reflexivity.
Qed.

Lemma resumed_laidOut (i : Instance) (l : JS.num) (calls : list (JS.num * bool))
    (p : Pager) :
  laidOut (fold_left (fun acc call => setPage_resume i (fst call) (snd call) l acc)
                     calls p)
  = laidOut p.
Proof.
  revert p. induction calls as [|c calls IH]; intro p; [reflexivity|].
  cbn [fold_left]. rewrite IH. apply setPage_resume_laidOut.
Qed.

(** X13.  Waiting for the layout changes nothing but the moment: a [setPage]
    call made before the first layout has, once the layout arrives, the
    effect of the same call made right after the layout. *)
Theorem X13_setPage_before_layout_is_deferred :
  forall (i : Instance) (index : JS.num) (animated : bool) (w h : JS.num) (p : Pager),
    laidOut p = None ->
    onLayout i w h (setPage i index animated p)
    = setPage i index animated (onLayout i w h p).
Proof.
  intros i index animated w h p Hl.
  unfold setPage at 1. rewrite Hl. unfold onLayout.
  rewrite with_size_commute.
  cbn [laidOut with_layout with_size pendingSetPage]. rewrite Hl.
  rewrite fold_left_app. cbn [fold_left fst snd].
  set (l := if vertical (props i) then h else w).
  set (base := with_layout (Some l) [] (with_size w h p)).
  change (with_layout (Some l) []
            (with_layout None (pendingSetPage p ++ [(index, animated)])
                         (with_size w h p))) with base.
  unfold setPage. rewrite resumed_laidOut. reflexivity.
Qed.

Lemma X13_setPage_before_layout_witness :
  onLayout (root (bounded 0 3 0 0)) (JS.ofZ 300) (JS.ofZ 600)
    (setPage (root (bounded 0 3 0 0)) (JS.ofZ 2) false (mount (root (bounded 0 3 0 0))))
  = setPage (root (bounded 0 3 0 0)) (JS.ofZ 2) false
      (onLayout (root (bounded 0 3 0 0)) (JS.ofZ 300) (JS.ofZ 600)
                (mount (root (bounded 0 3 0 0)))).
Proof.
  apply (@X13_setPage_before_layout_is_deferred (root (bounded 0 3 0 0)) (JS.ofZ 2)
           false (JS.ofZ 300) (JS.ofZ 600) (mount (root (bounded 0 3 0 0)))).
  reflexivity.
Defined.




(** ** The registry of mounted pagers *)

Lemma remove_absent (id : string) (l : list string) :
  ~ In id l -> remove id l = l.
Proof.
  unfold remove. induction l as [|x l IH]; intro H; [reflexivity|].
  cbn [filter]. destruct (String.eqb_spec x id) as [->|Hne]; cbn [negb].
  - exfalso. apply H. left. reflexivity.
  - rewrite IH; [reflexivity|]. intro Hin. apply H. right. exact Hin.
Qed.

Lemma set_values_In (l : list string) (y : string) :
  In y (set_values l) <-> In y l.
Proof.
  induction l as [|x l IH]; [reflexivity|].
  cbn [set_values In]. rewrite In_remove, IH.
  destruct (string_dec x y) as [->|Hne]; [tauto|].
  split; [tauto|]. intros [H|H]; [tauto|]. right. split; [exact H|congruence].
Qed.

Lemma set_values_NoDup (l : list string) : NoDup (set_values l).
Proof.
  induction l as [|x l IH]; cbn [set_values]; constructor.
  - intro H. apply In_remove in H. destruct H as [_ H]. apply H. reflexivity.
  - apply NoDup_remove. exact IH.
Qed.

Lemma set_values_fixed (l : list string) : NoDup l -> set_values l = l.
Proof.
  induction 1 as [|x l Hnin Hnd IH]; [reflexivity|].
  cbn [set_values]. rewrite IH, (remove_absent x l Hnin). reflexivity.
Qed.

Lemma registerPager_NoDup (id : string) (pagers : list string) :
  NoDup (registerPager id pagers).
Proof.
  unfold registerPager.
  destruct (includes id (set_values pagers)) eqn:E; [apply set_values_NoDup|].
  apply NoDup_push; [apply set_values_NoDup|].
  intro H. apply includes_In in H. congruence.
Qed.

Lemma registerPager_In (id : string) (pagers : list string) (x : string) :
  In x (registerPager id pagers) <-> x = id \/ In x pagers.
Proof.
  unfold registerPager.
  destruct (includes id (set_values pagers)) eqn:E.
  - apply includes_In in E. rewrite set_values_In in *. split; [tauto|].
    intros [->|H]; assumption.
  - rewrite in_app_iff, set_values_In. cbn [In]. intuition congruence.
Qed.

(** X14.  Registering a pager leaves a duplicate-free list that holds the
    pager and exactly the pagers that were registered before; registering
    again changes nothing; deregistering takes the pager out and nobody
    else; and mounting then unmounting restores a duplicate-free list that
    did not hold the pager. *)
Theorem X14_registry_of_mounted_pagers :
  forall (id : string) (pagers : list string),
    NoDup (registerPager id pagers)
    /\ (forall x : string, In x (registerPager id pagers) <-> x = id \/ In x pagers)
    /\ registerPager id (registerPager id pagers) = registerPager id pagers
    /\ (forall x : string, In x (unregisterPager id pagers) <-> In x pagers /\ x <> id)
    /\ (NoDup pagers -> ~ In id pagers ->
        unregisterPager id (registerPager id pagers) = pagers).
Proof.
  intros id pagers. split; [apply registerPager_NoDup|].
  split; [apply registerPager_In|]. split; [|split].
  - pose proof (registerPager_NoDup id pagers) as Hnd.
    assert (Hin : In id (registerPager id pagers))
      by (apply registerPager_In; left; reflexivity).
    unfold registerPager at 1. rewrite (set_values_fixed Hnd).
    apply includes_In in Hin. rewrite Hin. reflexivity.
  - intro x. unfold unregisterPager. rewrite In_remove, set_values_In. reflexivity.
  - intros Hnd Hnin. unfold unregisterPager.
    rewrite (set_values_fixed (registerPager_NoDup id pagers)).
    unfold registerPager. rewrite (set_values_fixed Hnd).
    destruct (includes id pagers) eqn:E.
    + apply includes_In in E. contradiction.
    + fold (push id pagers). rewrite remove_push_same. apply remove_absent. exact Hnin.
Qed.

(** ** Providers *)

Lemma nest_inside (inner : list (nat * nat)) (ctx : Context) :
  (0 <= ctxNestingDepth ctx)%Z ->
  nest inner ctx
  = {| ctxNestingDepth := ctxNestingDepth ctx + Z.of_nat (List.length inner);
       ctxActivePagers := ctxActivePagers ctx;
       ctxPagers := ctxPagers ctx |}.
Proof.
  revert ctx. induction inner as [|own inner IH]; intros ctx H.
  - cbn. rewrite Z.add_0_r. destruct ctx; reflexivity.
  - unfold nest in *. cbn [fold_left]. rewrite IH.
    + unfold InfinitePagerProvider.
      assert (E : Z.eqb (ctxNestingDepth ctx) (-1) = false) by (apply Z.eqb_neq; lia).
      rewrite E. cbn [ctxNestingDepth ctxActivePagers ctxPagers List.length].
      f_equal. lia.
    + cbn [InfinitePagerProvider ctxNestingDepth]. lia.
Qed.

(** X15.  Under nested providers a pager reads the number of providers
    around the innermost one as its nesting depth (0 under a single
    provider, never negative), and the two registries of the outermost
    provider, whatever shared values the inner providers created. *)
Theorem X15_nested_providers_share_the_root_registry :
  forall (rootPagers rootActivePagers : nat) (inner : list (nat * nat)),
    nest ((rootPagers, rootActivePagers) :: inner) defaultContext
    = {| ctxNestingDepth := Z.of_nat (List.length inner);
         ctxActivePagers := rootActivePagers;
         ctxPagers := rootPagers |}.
Proof.
  intros rootPagers rootActivePagers inner.
  unfold nest. cbn [fold_left]. fold (nest inner (InfinitePagerProvider
    (fst (rootPagers, rootActivePagers)) (snd (rootPagers, rootActivePagers))
    defaultContext)).
  rewrite nest_inside; [reflexivity|]. cbn. lia.
Qed.

(** ** Touch-move samples at and away from the edges *)

(** X6.  For a pager that is neither locked nor disabled: a sample that moves
    outwards at an edge fails exactly when no bounce is configured; and with
    the default unbounded range no sample fails, each one leaving the pager
    registered. *)
Theorem X6_touch_move_fails_only_outwards_without_bounce :
  forall (i : Instance) (t : Touch) (p : Pager) (active : list string),
    JS.to_bool (isGestureLocked i active) = false ->
    gesturesDisabled (props i) = false ->
    (swipingPastEnd i t p = true ->
     (snd (onTouchesMove i t p active) = true
      <-> JS.truthy (bouncePct (props i)) = false))
    /\ (forall c : Q,
           minIndex (props i) = JS.NInf ->
           maxIndex (props i) = JS.PInf ->
           curIndex p = JS.Fin c ->
           snd (onTouchesMove i t p active) = false
           /\ In (pagerId i) (fst (onTouchesMove i t p active))).
Proof.
  intros i t p active Hfree Hen. split.
  - intro Hpast. unfold onTouchesMove, shouldFailSelf, gesturesDisabledAnim.
    rewrite Hpast, Hfree, Hen, andb_true_r, !orb_false_r.
    destruct (JS.truthy (bouncePct (props i))); cbn; split; congruence.
  - intros c Hmin Hmax Hc.
    apply and_comm. apply onTouchesMove_ok_member.
    unfold shouldFailSelf, gesturesDisabledAnim, swipingPastEnd, isMinIndex,
      isMaxIndex, JS.ge.
    rewrite Hfree, Hen, Hmin, Hmax, Hc. cbn [JS.le andb orb].
    rewrite andb_false_r. reflexivity.
Qed.

(** An unbounded pager, alone, 300 wide. *)
Lemma X6_touch_move_witness :
  snd (onTouchesMove flick (touchAt 180 40) (fst flick_began) (snd flick_began)) = false
  /\ In (pagerId flick)
        (fst (onTouchesMove flick (touchAt 180 40) (fst flick_began) (snd flick_began))).
Proof.
  apply (proj2 (@X6_touch_move_fails_only_outwards_without_bounce flick
                  (touchAt 180 40) (fst flick_began) (snd flick_began)
                  eq_refl eq_refl) 0);
    reflexivity.
Defined.

(** ** The committed index is the nearest page *)



